(** * TBN-Search: the search orchestration of [App.tsx]

    A shallow embedding of the [App] component of the catalog browser
    (the revision with the abort controller, the engine / network / tags
    filters and the fixed result limit), followed by the properties of its
    search orchestration: request construction, response mapping, the
    debounce / dependency wiring, cancellation of superseded cycles, the
    loading flag and the detail dialog.

    Two earlier revisions of the component are embedded beside it: the
    one with a single item list and no abort controller (module [Rev1])
    and the one that renders a fixed catalog (module [Mock]).

    JavaScript strings are modelled as byte strings holding their UTF-8
    encoding, JavaScript numbers that count records as [Z], time as [nat]. *)

From Stdlib Require Import ZArith String Ascii List Bool Lia.
From stdpp Require Import base list.
Import ListNotations.

Local Open Scope string_scope.

(* ===================================================================== *)
(** ** JavaScript values                                                    *)
(* ===================================================================== *)

(** A value that may be [undefined] or [null] (a field absent from the
    parsed JSON reads as [undefined]). *)
Inductive Nullable (A : Type) : Type :=
| jsUndefined
| jsNull
| jsVal (a : A).
Arguments jsUndefined {A}.
Arguments jsNull {A}.
Arguments jsVal {A} a.

(** [x ?? d] *)
Definition nullish {A} (x : Nullable A) (d : A) : A :=
  match x with jsVal a => a | _ => d end.

(** [x?.f] *)
Definition optchain {A B} (x : Nullable A) (f : A -> Nullable B) : Nullable B :=
  match x with jsVal a => f a | _ => jsUndefined end.

(** [s || d] on a possibly missing string: [undefined], [null] and the
    empty string are falsy. *)
Definition str_or (x : Nullable string) (d : string) : string :=
  match x with
  | jsVal s => if String.eqb s "" then d else s
  | _ => d
  end.

(** Truthiness of a string: [if (s)]. *)
Definition truthy (s : string) : bool := negb (String.eqb s "").

Inductive JsError : Type := AbortError | TypeError | SyntaxError.

Definition err_name (e : JsError) : string :=
  match e with
  | AbortError => "AbortError"
  | TypeError => "TypeError"
  | SyntaxError => "SyntaxError"
  end.

(** *** [String.prototype.trim]

    White space and line terminators of ECMAScript, as UTF-8 byte
    sequences: TAB, LF, VT, FF, CR, SP, U+00A0, U+1680, U+2000..U+200A,
    U+2028, U+2029, U+202F, U+205F, U+3000, U+FEFF. *)
Definition bytes (l : list nat) : list ascii := map ascii_of_nat l.

Definition js_whitespace : list (list ascii) :=
  map bytes
    ([ [9]; [10]; [11]; [12]; [13]; [32]; [194; 160]; [225; 154; 128] ]
     ++ map (fun n => [226; 128; n]) [128; 129; 130; 131; 132; 133; 134; 135; 136; 137; 138]
     ++ [ [226; 128; 168]; [226; 128; 169]; [226; 128; 175];
          [226; 129; 159]; [227; 128; 128]; [239; 187; 191] ]).

Fixpoint starts_with (w l : list ascii) : bool :=
  match w, l with
  | [], _ => true
  | a :: w', b :: l' => Ascii.eqb a b && starts_with w' l'
  | _ :: _, [] => false
  end.

Fixpoint strip_start (ws : list (list ascii)) (fuel : nat) (l : list ascii) : list ascii :=
  match fuel with
  | O => l
  | S fuel' =>
      match find (fun w => starts_with w l) ws with
      | Some w => strip_start ws fuel' (skipn (length w) l)
      | None => l
      end
  end.

Definition trim (s : string) : string :=
  let l := list_ascii_of_string s in
  let l1 := strip_start js_whitespace (length l) l in
  let l2 := strip_start (map (@rev ascii) js_whitespace) (length l1) (rev l1) in
  string_of_list_ascii (rev l2).

(* ===================================================================== *)
(** ** Data model                                                           *)
(* ===================================================================== *)

Inductive DocumentType : Type := playlist | media.
Inductive Kind : Type := series | episode.
Inductive TabName : Type := tab_series | tab_episodes.
Inductive EngineId : Type := al | es.

Definition documentType_str (d : DocumentType) : string :=
  match d with playlist => "playlist" | media => "media" end.

Definition engine_str (e : EngineId) : string :=
  match e with al => "al" | es => "es" end.

(** [type ApiItem] *)
Record ApiItem : Type := {
  ai_id : string;
  ai_externalId : Nullable string;
  ai_title : string;
  ai_description : Nullable string;
  ai_thumbnailUrl : Nullable string;
  ai_tags : Nullable (list string);
  ai_documentType : DocumentType
}.

(** [type Item]; [raw] keeps the full API record for the dialog. *)
Record Item : Type := {
  it_id : string;
  it_kind : Kind;
  it_title : string;
  it_description : option string;
  it_image : string;
  it_raw : option ApiItem
}.

(** [type ApiResponse]: at run time every level of the envelope may be
    missing. *)
Record ApiData : Type := {
  d_engine : Nullable string;
  d_limit : Nullable Z;
  d_page : Nullable Z;
  d_results : Nullable (list ApiItem);
  d_total : Nullable Z
}.

Record ApiResponse : Type := {
  r_message : Nullable string;
  r_data : Nullable ApiData
}.

(** [function mapApiToItem(ai: ApiItem): Item] *)
Definition mapApiToItem (ai : ApiItem) : Item :=
  {| it_id := ai_id ai;
     it_kind := match ai_documentType ai with playlist => series | media => episode end;
     it_title := ai_title ai;
     it_description := Some (str_or (ai_description ai) "");
     it_image := str_or (ai_thumbnailUrl ai) "";
     it_raw := Some ai |}.

(* ===================================================================== *)
(** ** The request: [URLSearchParams] and the URL                           *)
(* ===================================================================== *)

(** [params.set(k, v)]: the first pair named [k] takes the value, later
    pairs of that name are dropped, a new name is appended. *)
Fixpoint params_set (k v : string) (ps : list (string * string)) : list (string * string) :=
  match ps with
  | [] => [(k, v)]
  | (k', v') :: rest =>
      if String.eqb k' k
      then (k, v) :: filter (fun p => negb (String.eqb (fst p) k)) rest
      else (k', v') :: params_set k v rest
  end.

(** [params.get(k)] *)
Fixpoint params_get (k : string) (ps : list (string * string)) : option string :=
  match ps with
  | [] => None
  | (k', v') :: rest => if String.eqb k' k then Some v' else params_get k rest
  end.

(** The application/x-www-form-urlencoded serializer behind
    [params.toString()]. *)
Definition hex_digit (n : nat) : ascii :=
  match String.get n "0123456789ABCDEF" with Some c => c | None => "0"%char end.

Definition form_safe (c : ascii) : bool :=
  let n := nat_of_ascii c in
  (((48 <=? n) && (n <=? 57)) || ((65 <=? n) && (n <=? 90)) || ((97 <=? n) && (n <=? 122))
   || (n =? 42) || (n =? 45) || (n =? 46) || (n =? 95))%nat.

Fixpoint urlencode (s : string) : string :=
  match s with
  | EmptyString => ""
  | String c rest =>
      let n := nat_of_ascii c in
      (if form_safe c then String c ""
       else if (n =? 32)%nat then "+"
       else String "%"%char (String (hex_digit (n / 16)) (String (hex_digit (n mod 16)) "")))
      ++ urlencode rest
  end.

Definition params_toString (ps : list (string * string)) : string :=
  String.concat "&" (map (fun p => urlencode (fst p) ++ "=" ++ urlencode (snd p)) ps).

Definition API_BASE : string := "https://mbs-dev-api.trilogyapps.com/api".

(** The filters a render of [App] closes over. *)
Record Filters : Type := {
  f_engine : EngineId;
  f_language : string;
  f_tags : list string
}.

(** The parameters [fetchOne] builds, statement by statement. *)
Definition fetchOne_params (documentType : DocumentType) (qv : string) (f : Filters)
  : list (string * string) :=
  let params := [] in
  let params := params_set "q" qv params in
  let params := params_set "documentType" (documentType_str documentType) params in
  let params := if truthy (f_language f) then params_set "network" (f_language f) params else params in
  let params := if negb (length (f_tags f) =? 0)%nat
                then params_set "tags" (String.concat "," (f_tags f)) params else params in
  params_set "limit" "500" params.

Definition fetchOne_url (documentType : DocumentType) (qv : string) (f : Filters) : string :=
  API_BASE ++ "/search/" ++ engine_str (f_engine f) ++ "?"
  ++ params_toString (fetchOne_params documentType qv f).

(* ===================================================================== *)
(** ** The response: [fetch], [res.json()] and the rest of [fetchOne]       *)
(* ===================================================================== *)

(** What the network hands back for one request: no response at all, or a
    response with a status and a body that parses as JSON or does not. *)
Inductive Body : Type :=
| Malformed
| Json (j : Nullable ApiResponse).

Record Response : Type := { status : nat; body : Body }.

Inductive NetResult : Type :=
| NetworkFailure
| Arrived (r : Response).

(** [await fetch(url, { signal })]: rejects with an [AbortError] once the
    signal is aborted, with a [TypeError] when the transport fails, and
    resolves with the response otherwise, whatever its status. *)
Definition fetch (aborted : bool) (net : NetResult) : JsError + Response :=
  if aborted then inl AbortError
  else match net with
       | NetworkFailure => inl TypeError
       | Arrived r => inr r
       end.

(** [await res.json()] *)
Definition json (r : Response) : JsError + Nullable ApiResponse :=
  match body r with
  | Malformed => inl SyntaxError
  | Json j => inr j
  end.

Record FetchOneResult : Type := { mapped : list Item; total : Z }.

(** The statements of [fetchOne] after the URL is built. *)
Definition fetchOne (aborted : bool) (net : NetResult) : JsError + FetchOneResult :=
  match fetch aborted net with
  | inl e => inl e
  | inr res =>
      match json res with
      | inl e => inl e
      | inr data =>
          let arr := nullish (optchain (optchain data r_data) d_results) [] in
          inr {| mapped := map mapApiToItem arr;
                 total := nullish (optchain (optchain data r_data) d_total) 0%Z |}
      end
  end.

(* ===================================================================== *)
(** ** The state of [App]                                                   *)
(* ===================================================================== *)

Record Counts : Type := { c_series : Z; c_episodes : Z }.

(** [dialogData] is [it.raw ?? it]: the raw record, or the item itself. *)
Inductive DialogData : Type :=
| RawRecord (ai : ApiItem)
| MinimalItem (it : Item).

(** How the [Promise.all] of a cycle settled. *)
Inductive Settlement : Type :=
| Resolved (seriesRes episodesRes : FetchOneResult)
| Rejected (err : JsError).

(** The two textual branches of [fetchData]. *)
Inductive Branch : Type := BrowseAll | Search.

(** One call of [fetchData] that has reached its [await]: the controller
    it created, the two requests it issued, the [fetchOne] promises that
    have resolved so far, and the settlement of its [Promise.all] once the
    rest of the function has run. The identity of a cycle (of its
    [AbortController]) is its index in [cycles]. *)
Record Cycle : Type := {
  cy_branch : Branch;
  cy_qv : string;
  cy_url_playlist : string;
  cy_url_media : string;
  cy_started_at : nat;
  cy_aborted : bool;
  cy_playlist : option FetchOneResult;
  cy_media : option FetchOneResult;
  cy_outcome : option Settlement
}.

(** The [useState] cells and the [useRef] cell of [App], the value and the
    pending timeout of [useDebounce], and what lives outside the
    component: the clock, the calls of [fetchData] in flight, the
    console. *)
Record State : Type := {
  q : string;
  tab : TabName;
  loading : bool;
  counts : Counts;
  seriesItems : list Item;
  episodeItems : list Item;
  abortRef : option nat;
  dialogOpen : bool;
  dialogData : option DialogData;
  debouncedQ : string;
  engine : EngineId;
  language : string;
  tags : list string;
  timer : option nat;
  now : nat;
  cycles : list Cycle;
  console : list (string * JsError)
}.

Definition set_q (v : string) (s : State) : State :=
  {| q := v;
     tab := tab s;
     loading := loading s;
     counts := counts s;
     seriesItems := seriesItems s;
     episodeItems := episodeItems s;
     abortRef := abortRef s;
     dialogOpen := dialogOpen s;
     dialogData := dialogData s;
     debouncedQ := debouncedQ s;
     engine := engine s;
     language := language s;
     tags := tags s;
     timer := timer s;
     now := now s;
     cycles := cycles s;
     console := console s |}.

Definition set_tab (v : TabName) (s : State) : State :=
  {| q := q s;
     tab := v;
     loading := loading s;
     counts := counts s;
     seriesItems := seriesItems s;
     episodeItems := episodeItems s;
     abortRef := abortRef s;
     dialogOpen := dialogOpen s;
     dialogData := dialogData s;
     debouncedQ := debouncedQ s;
     engine := engine s;
     language := language s;
     tags := tags s;
     timer := timer s;
     now := now s;
     cycles := cycles s;
     console := console s |}.

Definition set_loading (v : bool) (s : State) : State :=
  {| q := q s;
     tab := tab s;
     loading := v;
     counts := counts s;
     seriesItems := seriesItems s;
     episodeItems := episodeItems s;
     abortRef := abortRef s;
     dialogOpen := dialogOpen s;
     dialogData := dialogData s;
     debouncedQ := debouncedQ s;
     engine := engine s;
     language := language s;
     tags := tags s;
     timer := timer s;
     now := now s;
     cycles := cycles s;
     console := console s |}.

Definition set_counts (v : Counts) (s : State) : State :=
  {| q := q s;
     tab := tab s;
     loading := loading s;
     counts := v;
     seriesItems := seriesItems s;
     episodeItems := episodeItems s;
     abortRef := abortRef s;
     dialogOpen := dialogOpen s;
     dialogData := dialogData s;
     debouncedQ := debouncedQ s;
     engine := engine s;
     language := language s;
     tags := tags s;
     timer := timer s;
     now := now s;
     cycles := cycles s;
     console := console s |}.

Definition set_seriesItems (v : list Item) (s : State) : State :=
  {| q := q s;
     tab := tab s;
     loading := loading s;
     counts := counts s;
     seriesItems := v;
     episodeItems := episodeItems s;
     abortRef := abortRef s;
     dialogOpen := dialogOpen s;
     dialogData := dialogData s;
     debouncedQ := debouncedQ s;
     engine := engine s;
     language := language s;
     tags := tags s;
     timer := timer s;
     now := now s;
     cycles := cycles s;
     console := console s |}.

Definition set_episodeItems (v : list Item) (s : State) : State :=
  {| q := q s;
     tab := tab s;
     loading := loading s;
     counts := counts s;
     seriesItems := seriesItems s;
     episodeItems := v;
     abortRef := abortRef s;
     dialogOpen := dialogOpen s;
     dialogData := dialogData s;
     debouncedQ := debouncedQ s;
     engine := engine s;
     language := language s;
     tags := tags s;
     timer := timer s;
     now := now s;
     cycles := cycles s;
     console := console s |}.

Definition set_abortRef (v : option nat) (s : State) : State :=
  {| q := q s;
     tab := tab s;
     loading := loading s;
     counts := counts s;
     seriesItems := seriesItems s;
     episodeItems := episodeItems s;
     abortRef := v;
     dialogOpen := dialogOpen s;
     dialogData := dialogData s;
     debouncedQ := debouncedQ s;
     engine := engine s;
     language := language s;
     tags := tags s;
     timer := timer s;
     now := now s;
     cycles := cycles s;
     console := console s |}.

Definition set_dialogOpen (v : bool) (s : State) : State :=
  {| q := q s;
     tab := tab s;
     loading := loading s;
     counts := counts s;
     seriesItems := seriesItems s;
     episodeItems := episodeItems s;
     abortRef := abortRef s;
     dialogOpen := v;
     dialogData := dialogData s;
     debouncedQ := debouncedQ s;
     engine := engine s;
     language := language s;
     tags := tags s;
     timer := timer s;
     now := now s;
     cycles := cycles s;
     console := console s |}.

Definition set_dialogData (v : option DialogData) (s : State) : State :=
  {| q := q s;
     tab := tab s;
     loading := loading s;
     counts := counts s;
     seriesItems := seriesItems s;
     episodeItems := episodeItems s;
     abortRef := abortRef s;
     dialogOpen := dialogOpen s;
     dialogData := v;
     debouncedQ := debouncedQ s;
     engine := engine s;
     language := language s;
     tags := tags s;
     timer := timer s;
     now := now s;
     cycles := cycles s;
     console := console s |}.

Definition set_debouncedQ (v : string) (s : State) : State :=
  {| q := q s;
     tab := tab s;
     loading := loading s;
     counts := counts s;
     seriesItems := seriesItems s;
     episodeItems := episodeItems s;
     abortRef := abortRef s;
     dialogOpen := dialogOpen s;
     dialogData := dialogData s;
     debouncedQ := v;
     engine := engine s;
     language := language s;
     tags := tags s;
     timer := timer s;
     now := now s;
     cycles := cycles s;
     console := console s |}.

Definition set_engine (v : EngineId) (s : State) : State :=
  {| q := q s;
     tab := tab s;
     loading := loading s;
     counts := counts s;
     seriesItems := seriesItems s;
     episodeItems := episodeItems s;
     abortRef := abortRef s;
     dialogOpen := dialogOpen s;
     dialogData := dialogData s;
     debouncedQ := debouncedQ s;
     engine := v;
     language := language s;
     tags := tags s;
     timer := timer s;
     now := now s;
     cycles := cycles s;
     console := console s |}.

Definition set_language (v : string) (s : State) : State :=
  {| q := q s;
     tab := tab s;
     loading := loading s;
     counts := counts s;
     seriesItems := seriesItems s;
     episodeItems := episodeItems s;
     abortRef := abortRef s;
     dialogOpen := dialogOpen s;
     dialogData := dialogData s;
     debouncedQ := debouncedQ s;
     engine := engine s;
     language := v;
     tags := tags s;
     timer := timer s;
     now := now s;
     cycles := cycles s;
     console := console s |}.

Definition set_tags (v : list string) (s : State) : State :=
  {| q := q s;
     tab := tab s;
     loading := loading s;
     counts := counts s;
     seriesItems := seriesItems s;
     episodeItems := episodeItems s;
     abortRef := abortRef s;
     dialogOpen := dialogOpen s;
     dialogData := dialogData s;
     debouncedQ := debouncedQ s;
     engine := engine s;
     language := language s;
     tags := v;
     timer := timer s;
     now := now s;
     cycles := cycles s;
     console := console s |}.

Definition set_timer (v : option nat) (s : State) : State :=
  {| q := q s;
     tab := tab s;
     loading := loading s;
     counts := counts s;
     seriesItems := seriesItems s;
     episodeItems := episodeItems s;
     abortRef := abortRef s;
     dialogOpen := dialogOpen s;
     dialogData := dialogData s;
     debouncedQ := debouncedQ s;
     engine := engine s;
     language := language s;
     tags := tags s;
     timer := v;
     now := now s;
     cycles := cycles s;
     console := console s |}.

Definition set_now (v : nat) (s : State) : State :=
  {| q := q s;
     tab := tab s;
     loading := loading s;
     counts := counts s;
     seriesItems := seriesItems s;
     episodeItems := episodeItems s;
     abortRef := abortRef s;
     dialogOpen := dialogOpen s;
     dialogData := dialogData s;
     debouncedQ := debouncedQ s;
     engine := engine s;
     language := language s;
     tags := tags s;
     timer := timer s;
     now := v;
     cycles := cycles s;
     console := console s |}.

Definition set_cycles (v : list Cycle) (s : State) : State :=
  {| q := q s;
     tab := tab s;
     loading := loading s;
     counts := counts s;
     seriesItems := seriesItems s;
     episodeItems := episodeItems s;
     abortRef := abortRef s;
     dialogOpen := dialogOpen s;
     dialogData := dialogData s;
     debouncedQ := debouncedQ s;
     engine := engine s;
     language := language s;
     tags := tags s;
     timer := timer s;
     now := now s;
     cycles := v;
     console := console s |}.

Definition set_console (v : list (string * JsError)) (s : State) : State :=
  {| q := q s;
     tab := tab s;
     loading := loading s;
     counts := counts s;
     seriesItems := seriesItems s;
     episodeItems := episodeItems s;
     abortRef := abortRef s;
     dialogOpen := dialogOpen s;
     dialogData := dialogData s;
     debouncedQ := debouncedQ s;
     engine := engine s;
     language := language s;
     tags := tags s;
     timer := timer s;
     now := now s;
     cycles := cycles s;
     console := v |}.

Definition set_aborted (cy : Cycle) : Cycle :=
  {| cy_branch := cy_branch cy; cy_qv := cy_qv cy;
     cy_url_playlist := cy_url_playlist cy; cy_url_media := cy_url_media cy;
     cy_started_at := cy_started_at cy; cy_aborted := true;
     cy_playlist := cy_playlist cy; cy_media := cy_media cy;
     cy_outcome := cy_outcome cy |}.

Definition set_outcome (o : Settlement) (cy : Cycle) : Cycle :=
  {| cy_branch := cy_branch cy; cy_qv := cy_qv cy;
     cy_url_playlist := cy_url_playlist cy; cy_url_media := cy_url_media cy;
     cy_started_at := cy_started_at cy; cy_aborted := cy_aborted cy;
     cy_playlist := cy_playlist cy; cy_media := cy_media cy;
     cy_outcome := Some o |}.

Definition slot (documentType : DocumentType) (cy : Cycle) : option FetchOneResult :=
  match documentType with playlist => cy_playlist cy | media => cy_media cy end.

Definition fill_slot (documentType : DocumentType) (r : FetchOneResult) (cy : Cycle) : Cycle :=
  {| cy_branch := cy_branch cy; cy_qv := cy_qv cy;
     cy_url_playlist := cy_url_playlist cy; cy_url_media := cy_url_media cy;
     cy_started_at := cy_started_at cy; cy_aborted := cy_aborted cy;
     cy_playlist := match documentType with playlist => Some r | media => cy_playlist cy end;
     cy_media := match documentType with playlist => cy_media cy | media => Some r end;
     cy_outcome := cy_outcome cy |}.

Definition other (d : DocumentType) : DocumentType :=
  match d with playlist => media | media => playlist end.

Definition filters (s : State) : Filters :=
  {| f_engine := engine s; f_language := language s; f_tags := tags s |}.

(* ===================================================================== *)
(** ** [fetchData]                                                          *)
(* ===================================================================== *)

(** [abortRef.current?.abort()] *)
Definition abort_current (s : State) : State :=
  match abortRef s with
  | Some c => set_cycles (alter set_aborted c (cycles s)) s
  | None => s
  end.

(** The two [fetchOne] calls handed to [Promise.all]: the cycle is
    recorded with both requests in flight. *)
Definition launch (b : Branch) (qv : string) (s : State) : State :=
  set_cycles
    (cycles s ++
     [ {| cy_branch := b; cy_qv := qv;
          cy_url_playlist := fetchOne_url playlist qv (filters s);
          cy_url_media := fetchOne_url media qv (filters s);
          cy_started_at := now s; cy_aborted := false;
          cy_playlist := None; cy_media := None; cy_outcome := None |} ]) s.

(** [fetchData], from its first statement to the [await] of either
    branch. *)
Definition fetchData (s : State) : State :=
  let s := abort_current s in
  let ac := length (cycles s) in
  let s := set_abortRef (Some ac) s in
  let qv := trim (debouncedQ s) in
  if negb (truthy qv) then
    let s := set_loading true s in
    launch BrowseAll "" s
  else
    let s := set_loading true s in
    launch Search qv s.

Definition zero_counts : Counts := {| c_series := 0; c_episodes := 0 |}.

Definition console_error (label : string) (err : JsError) (s : State) : State :=
  set_console (console s ++ [(label, err)]) s.

(** [fetchData] after the [await]: the rest of the [try], the [catch] and
    the [finally] of the branch the cycle took. *)
Definition fetchData_resume (b : Branch) (o : Settlement) (s : State) : State :=
  match b with
  | BrowseAll =>
      let s :=
        match o with
        | Resolved seriesAll episodesAll =>
            let s := set_counts {| c_series := total seriesAll; c_episodes := total episodesAll |} s in
            let s := set_seriesItems (mapped seriesAll) s in
            set_episodeItems (mapped episodesAll) s
        | Rejected err =>
            if String.eqb (err_name err) "AbortError" then s
            else
              let s := console_error "Fetch all failed" err s in
              let s := set_seriesItems [] s in
              let s := set_episodeItems [] s in
              set_counts zero_counts s
        end in
      set_loading false s
  | Search =>
      let s :=
        match o with
        | Resolved seriesRes episodesRes =>
            let s := set_counts {| c_series := total seriesRes; c_episodes := total episodesRes |} s in
            let s := set_seriesItems (mapped seriesRes) s in
            set_episodeItems (mapped episodesRes) s
        | Rejected err =>
            if String.eqb (err_name err) "AbortError" then s
            else
              let s := console_error "Search fetch failed" err s in
              let s := set_seriesItems [] s in
              let s := set_episodeItems [] s in
              set_counts zero_counts s
        end in
      set_loading false s
  end.

(** The [Promise.all] of cycle [c] settles: the cycle is marked and the
    function resumes. *)
Definition settle (c : nat) (cy : Cycle) (o : Settlement) (s : State) : State :=
  let s := set_cycles (<[c := set_outcome o cy]> (cycles s)) s in
  fetchData_resume (cy_branch cy) o s.

(** One request of cycle [c] comes back. [Promise.all] rejects with the
    first rejection and resolves when both promises have resolved; a
    settled [Promise.all] ignores what comes later. *)
Definition deliver (c : nat) (documentType : DocumentType) (net : NetResult) (s : State) : State :=
  match cycles s !! c with
  | None => s
  | Some cy =>
      match cy_outcome cy, slot documentType cy with
      | Some _, _ => s
      | None, Some _ => s
      | None, None =>
          match fetchOne (cy_aborted cy) net with
          | inl err => settle c cy (Rejected err) s
          | inr r =>
              let cy := fill_slot documentType r cy in
              match cy_playlist cy, cy_media cy with
              | Some seriesRes, Some episodesRes => settle c cy (Resolved seriesRes episodesRes) s
              | _, _ => set_cycles (<[c := cy]> (cycles s)) s
              end
          end
      end
  end.

(* ===================================================================== *)
(** ** [useDebounce], events and the transition function                    *)
(* ===================================================================== *)

Definition quiescence : nat := 500.

(** Modelled from the spec: the hook [useDebounce] of [./hooks/useDebounce]
    is not among the sources. The debounced value equals the query once
    the query has not changed for the quiescence window; every change of
    the query restarts the window. [useDebounce_change] is what a changed
    [q] does to the hook. *)
Definition useDebounce_change (s : State) : State :=
  set_timer (Some (now s + quiescence)) s.

(** Modelled from the spec: the hook [useDebounce] is not among the
    sources. [useDebounce_expire] is the end of the window: the debounced
    value takes the value of the query. In [App], [fetchData] is a
    [useCallback] over [debouncedQ, engine, language, tags] and the effect
    that calls it depends on [fetchData] alone, so it runs again exactly
    when one of the four changes. *)
Definition useDebounce_expire (s : State) : State :=
  let s := set_timer None s in
  if String.eqb (debouncedQ s) (q s) then s
  else fetchData (set_debouncedQ (q s) s).

Definition EngineId_eqb (a b : EngineId) : bool :=
  match a, b with al, al | es, es => true | _, _ => false end.

Inductive Event : Type :=
| SetQ (text : string)
| SetTab (t : TabName)
| SetEngine (e : EngineId)
| SetLanguage (l : string)
| SetTags (ts : list string)
| CardClick (it : Item)
| CloseDialog
| Advance (d : nat)
| Deliver (c : nat) (documentType : DocumentType) (net : NetResult).

(** [handleCardClick] *)
Definition handleCardClick (it : Item) (s : State) : State :=
  let s := set_dialogData
             (Some (match it_raw it with Some r => RawRecord r | None => MinimalItem it end)) s in
  set_dialogOpen true s.

(** [handleCloseDialog] *)
Definition handleCloseDialog (s : State) : State := set_dialogOpen false s.

(** Time passes: the pending timeout, if it falls due, runs at its due
    time. *)
Definition advance (d : nat) (s : State) : State :=
  match timer s with
  | Some due =>
      if (due <=? now s + d)%nat
      then set_now (now s + d) (useDebounce_expire (set_now (Nat.max (now s) due) s))
      else set_now (now s + d) s
  | None => set_now (now s + d) s
  end.

(** A state setter called with the value already held does not render
    again; the [Autocomplete] hands [setTags] a new array every time. *)
Definition step (s : State) (e : Event) : State :=
  match e with
  | SetQ text =>
      if String.eqb text (q s) then s else useDebounce_change (set_q text s)
  | SetTab t => set_tab t s
  | SetEngine e =>
      if EngineId_eqb e (engine s) then s else fetchData (set_engine e s)
  | SetLanguage l =>
      if String.eqb l (language s) then s else fetchData (set_language l s)
  | SetTags ts => fetchData (set_tags ts s)
  | CardClick it => handleCardClick it s
  | CloseDialog => handleCloseDialog s
  | Advance d => advance d s
  | Deliver c documentType net => deliver c documentType net s
  end.

Definition run (s : State) (tr : list Event) : State := fold_left step tr s.

(** The state of the first render. *)
Definition init : State :=
  {| q := ""; tab := tab_series; loading := false; counts := zero_counts;
     seriesItems := []; episodeItems := []; abortRef := None;
     dialogOpen := false; dialogData := None; debouncedQ := "";
     engine := al; language := "en"; tags := [];
     timer := None; now := 0; cycles := []; console := [] |}.

(** After the effects of the first render: [fetchData] has been called. *)
Definition mounted : State := fetchData init.

(** What the view shows. *)
Definition visible (s : State) : list Item :=
  match tab s with tab_series => seriesItems s | tab_episodes => episodeItems s end.

Definition displayed_count (t : TabName) (s : State) : Z :=
  match t with tab_series => c_series (counts s) | tab_episodes => c_episodes (counts s) end.

(* ===================================================================== *)
(** ** Vocabulary of the statements                                         *)
(* ===================================================================== *)

Definition aborted_cycles (s : State) : list Cycle :=
  match abortRef s with
  | Some c => alter set_aborted c (cycles s)
  | None => cycles s
  end.

Definition new_cycle (s : State) : Cycle :=
  let qv := trim (debouncedQ s) in
  {| cy_branch := if truthy qv then Search else BrowseAll;
     cy_qv := qv;
     cy_url_playlist := fetchOne_url playlist qv (filters s);
     cy_url_media := fetchOne_url media qv (filters s);
     cy_started_at := now s; cy_aborted := false;
     cy_playlist := None; cy_media := None; cy_outcome := None |}.

(** [x] is [undefined] or [null]. *)
Definition is_nullish {A} (x : Nullable A) : bool :=
  match x with jsVal _ => false | _ => true end.

(** The parsed JSON lacks the data object, the results array or the total
    field. *)
Definition lacks_part (j : Nullable ApiResponse) : Prop :=
  is_nullish (optchain j r_data) = true
  \/ is_nullish (optchain (optchain j r_data) d_results) = true
  \/ is_nullish (optchain (optchain j r_data) d_total) = true.

(** The reading under which any one missing part empties the whole
    result. *)
Definition empties_whole_result (st : nat) (j : Nullable ApiResponse) : Prop :=
  lacks_part j ->
  fetchOne false (Arrived {| status := st; body := Json j |})
  = inr {| mapped := []; total := 0 |}.

Definition sample_record (i : string) (d : DocumentType) : ApiItem :=
  {| ai_id := i; ai_externalId := jsUndefined; ai_title := i;
     ai_description := jsUndefined; ai_thumbnailUrl := jsUndefined;
     ai_tags := jsUndefined; ai_documentType := d |}.

Definition envelope (rs : Nullable (list ApiItem)) (t : Nullable Z) : Nullable ApiResponse :=
  jsVal {| r_message := jsVal "ok";
           r_data := jsVal {| d_engine := jsVal "al"; d_limit := jsVal 500%Z;
                              d_page := jsVal 1%Z; d_results := rs; d_total := t |} |}.

(** A response that the claims count as a failure: no response, a status
    outside 200..299, or a body that is not JSON. *)
Definition failed_response (net : NetResult) : bool :=
  match net with
  | NetworkFailure => true
  | Arrived r =>
      negb ((200 <=? status r)%nat && (status r <? 300)%nat)
      || match body r with Malformed => true | Json _ => false end
  end.

(** The reading under which every such response to a request of a cycle
    that is in flight and not cancelled clears the results and is
    logged. *)
Definition clears_on_failure (s : State) (c : nat) (documentType : DocumentType)
    (net : NetResult) : Prop :=
  forall cy,
    cycles s !! c = Some cy -> cy_outcome cy = None -> cy_aborted cy = false ->
    slot documentType cy = None -> failed_response net = true ->
    let s' := step s (Deliver c documentType net) in
    seriesItems s' = [] /\ episodeItems s' = [] /\ counts s' = zero_counts
    /\ exists entry, console s' = (console s ++ [entry])%list.

Definition ok_response (rs : list ApiItem) (t : Z) : NetResult :=
  Arrived {| status := 200; body := Json (envelope (jsVal rs) (jsVal t)) |}.

(** A 500 whose body is the JSON object of an error message. *)
Definition error_response : NetResult :=
  Arrived {| status := 500;
             body := Json (jsVal {| r_message := jsVal "Internal Server Error";
                                    r_data := jsUndefined |}) |}.

(** What a settlement writes into the lists and the counts. *)
Definition committed (o : Settlement) : list Item * list Item * Counts :=
  match o with
  | Resolved seriesRes episodesRes =>
      (mapped seriesRes, mapped episodesRes,
       {| c_series := total seriesRes; c_episodes := total episodesRes |})
  | Rejected _ => ([], [], zero_counts)
  end.

(** What the component holds for the view. *)
Definition held (s : State) : list Item * list Item * Counts :=
  (seriesItems s, episodeItems s, counts s).

(** Every call of [fetchData] made so far has run to its end. *)
Definition all_settled (s : State) : bool :=
  forallb (fun cy => match cy_outcome cy with Some _ => true | None => false end) (cycles s).

(** The cycle [abortRef] points to is the one started last; it has not
    been aborted, its requests are those of the current debounced query
    and filters, and once it has settled the lists and counts held are
    the ones it wrote; every older cycle has been aborted. *)
Definition consistent (s : State) : Prop :=
  exists L cy,
    abortRef s = Some L /\ length (cycles s) = S L /\ cycles s !! L = Some cy
    /\ cy_aborted cy = false
    /\ cy_qv cy = trim (debouncedQ s)
    /\ cy_url_playlist cy = fetchOne_url playlist (trim (debouncedQ s)) (filters s)
    /\ cy_url_media cy = fetchOne_url media (trim (debouncedQ s)) (filters s)
    /\ (forall o, cy_outcome cy = Some o -> held s = committed o /\ o <> Rejected AbortError)
    /\ (forall a b, cy_outcome cy = Some (Resolved a b) ->
                    cy_playlist cy = Some a /\ cy_media cy = Some b)
    /\ (forall c cy', c < L -> cycles s !! c = Some cy' -> cy_aborted cy' = true).

(** The part of [consistent] that [fetchData] relies on. *)
Definition superseding (s : State) : Prop :=
  exists L,
    abortRef s = Some L /\ length (cycles s) = S L
    /\ (forall c cy', c < L -> cycles s !! c = Some cy' -> cy_aborted cy' = true).

(** A burst of events, each followed by a pause. *)
Fixpoint burst (ms : list (Event * nat)) : list Event :=
  match ms with
  | [] => []
  | (e, d) :: rest => e :: Advance d :: burst rest
  end.

(** Typing: each text replaces the query, then a pause. *)
Definition keystrokes (ks : list (string * nat)) : list Event :=
  burst (map (fun k => (SetQ (fst k), snd k)) ks).

(** Every text differs from the one it replaces. *)
Fixpoint changes (prev : string) (ts : list string) : Prop :=
  match ts with
  | [] => True
  | t :: rest => t <> prev /\ changes t rest
  end.

(** The events that change the query or a filter. *)
Definition mutation (e : Event) : bool :=
  match e with
  | SetQ _ | SetEngine _ | SetLanguage _ | SetTags _ => true
  | _ => false
  end.

(** The reading under which any burst of mutations, query or filter,
    with pauses shorter than the quiescence interval, starts exactly one
    cycle, at the end of the interval that follows the last of them. *)
Definition one_cycle_after_quiescence (s : State) (ms : list (Event * nat)) (e : Event) : Prop :=
  Forall (fun m => mutation (fst m) = true /\ snd m < quiescence) ms ->
  mutation e = true ->
  let s' := run s (burst ms ++ [e; Advance quiescence]) in
  length (cycles s') = S (length (cycles s))
  /\ exists cy, cycles s' !! length (cycles s) = Some cy
                /\ cy_started_at cy = now s + list_sum (map snd ms) + quiescence.

(** Frame goals about [deliver]: every branch leaves the field alone. *)
Ltac frame_deliver :=
  intros; unfold deliver, settle, fetchData_resume, console_error;
  repeat case_match; reflexivity.

(** The ways a response can be taken: ignored, rejecting the cycle,
    completing it, or stored until the sibling request comes back. *)
Inductive deliver_case (c : nat) (documentType : DocumentType) (net : NetResult)
    (s s' : State) : Prop :=
| dc_ignored :
    s' = s -> deliver_case c documentType net s s'
| dc_rejected (cy : Cycle) (err : JsError) :
    cycles s !! c = Some cy -> cy_outcome cy = None ->
    fetchOne (cy_aborted cy) net = inl err ->
    s' = settle c cy (Rejected err) s ->
    deliver_case c documentType net s s'
| dc_resolved (cy : Cycle) (r a b : FetchOneResult) :
    cycles s !! c = Some cy -> cy_outcome cy = None ->
    fetchOne (cy_aborted cy) net = inr r ->
    cy_playlist (fill_slot documentType r cy) = Some a ->
    cy_media (fill_slot documentType r cy) = Some b ->
    s' = settle c (fill_slot documentType r cy) (Resolved a b) s ->
    deliver_case c documentType net s s'
| dc_stored (cy : Cycle) (r : FetchOneResult) :
    cycles s !! c = Some cy -> cy_outcome cy = None ->
    fetchOne (cy_aborted cy) net = inr r ->
    s' = set_cycles (<[c := fill_slot documentType r cy]> (cycles s)) s ->
    deliver_case c documentType net s s'.

(** The ways an event can act on the cycles and on what they write: not
    at all, by a call of [fetchData], or by a response. *)
Inductive step_case (s s' : State) : Prop :=
| sc_quiet :
    cycles s' = cycles s -> abortRef s' = abortRef s -> loading s' = loading s ->
    held s' = held s -> console s' = console s ->
    step_case s s'
| sc_fetch (nc : Cycle) :
    cycles s' = (aborted_cycles s ++ [nc])%list ->
    cy_outcome nc = None -> cy_playlist nc = None -> cy_media nc = None ->
    cy_aborted nc = false ->
    abortRef s' = Some (length (cycles s)) -> loading s' = true ->
    held s' = held s -> console s' = console s ->
    step_case s s'
| sc_deliver (c : nat) (documentType : DocumentType) (net : NetResult) :
    deliver_case c documentType net s s' ->
    step_case s s'.

(** An item built by [mapApiToItem]. *)
Definition from_api (it : Item) : Prop := exists ai, it = mapApiToItem ai.

Definition slots_from_api (cy : Cycle) : Prop :=
  (forall r, cy_playlist cy = Some r -> Forall from_api (mapped r))
  /\ (forall r, cy_media cy = Some r -> Forall from_api (mapped r)).

(** Every item held, shown or waiting in a cycle was built by
    [mapApiToItem]. *)
Definition items_from_api (s : State) : Prop :=
  Forall from_api (seriesItems s) /\ Forall from_api (episodeItems s)
  /\ Forall slots_from_api (cycles s).

(** What [console.error] may have been called with. *)
Definition logged_failure (entry : string * JsError) : Prop :=
  snd entry <> AbortError
  /\ (fst entry = "Fetch all failed" \/ fst entry = "Search fetch failed").

(** The text of the dialog: [dialogData ? JSON.stringify(...) : "No data"]
    falls back when nothing is held. *)
Definition dialog_falls_back (s : State) : bool :=
  match dialogData s with Some _ => false | None => true end.

(** The events after which [fetchData] runs: a changed filter, a new tag
    list, or the end of the debounce window with a new value. *)
Definition starts_cycle (s : State) (e : Event) : bool :=
  match e with
  | SetEngine v => negb (EngineId_eqb v (engine s))
  | SetLanguage l => negb (String.eqb l (language s))
  | SetTags _ => true
  | Advance d =>
      match timer s with
      | Some due => (due <=? now s + d)%nat && negb (String.eqb (debouncedQ s) (q s))
      | None => false
      end
  | _ => false
  end.

(** Occurrences of a character in a string. *)
Fixpoint count_char (c : ascii) (s : string) : nat :=
  match s with
  | EmptyString => 0
  | String x rest => (if Ascii.eqb x c then 1 else 0) + count_char c rest
  end.

(** The characters the form serializer never emits: everything but
    letters, digits, [*-._], [+] and [%]. *)
Definition never_emitted (c : ascii) : bool :=
  negb (form_safe c || Ascii.eqb c "+" || Ascii.eqb c "%").

(* ===================================================================== *)
(** ** The first revision that queries the API                              *)
(* ===================================================================== *)

(** The revision of [App] with a single [items] list: no filters, no
    abort controller, the active tab among the dependencies of
    [fetchData], and an empty query that clears instead of browsing. *)
Module Rev1.

(** [const MOCK: Item[] = []] *)
Definition MOCK : list Item := [].

Definition placeholder_image : string :=
  "https://images.unsplash.com/photo-1495567720989-cebdbdd97913?q=80&w=1200&auto=format&fit=crop".

(** [API_BASE]: the environment's [VITE_API_BASE_URL], or the local
    default. *)
Definition API_BASE (VITE_API_BASE_URL : Nullable string) : string :=
  str_or VITE_API_BASE_URL "http://localhost:3000/api".

(** [function mapApiToItem(ai: ApiItem): Item] *)
Definition mapApiToItem (ai : ApiItem) : Item :=
  {| it_id := ai_id ai;
     it_kind := match ai_documentType ai with playlist => series | media => episode end;
     it_title := ai_title ai;
     it_description := Some (str_or (ai_description ai) "");
     it_image := str_or (ai_thumbnailUrl ai) placeholder_image;
     it_raw := Some ai |}.

Definition fetchOne_params (documentType : DocumentType) (qv : string) : list (string * string) :=
  let params := [] in
  let params := params_set "q" qv params in
  params_set "documentType" (documentType_str documentType) params.

Definition fetchOne_url (env : Nullable string) (documentType : DocumentType) (qv : string)
  : string :=
  API_BASE env ++ "/search/al?" ++ params_toString (fetchOne_params documentType qv).

(** [fetchOne] after the URL is built; [fetch] is called without a
    signal. *)
Definition fetchOne (net : NetResult) : JsError + FetchOneResult :=
  match fetch false net with
  | inl e => inl e
  | inr res =>
      match json res with
      | inl e => inl e
      | inr data =>
          let arr := nullish (optchain (optchain data r_data) d_results) [] in
          inr {| mapped := map mapApiToItem arr;
                 total := nullish (optchain (optchain data r_data) d_total) 0%Z |}
      end
  end.

(** A call of [fetchData] at its [await]: the tab and the term it closed
    over, its two requests, what has come back. *)
Record Cycle : Type := {
  cy_tab : TabName;
  cy_qv : string;
  cy_url_playlist : string;
  cy_url_media : string;
  cy_started_at : nat;
  cy_playlist : option FetchOneResult;
  cy_media : option FetchOneResult;
  cy_outcome : option Settlement
}.

Record State : Type := {
  q : string;
  tab : TabName;
  items : list Item;
  loading : bool;
  counts : Counts;
  dialogOpen : bool;
  dialogData : option DialogData;
  debouncedQ : string;
  timer : option nat;
  now : nat;
  cycles : list Cycle;
  console : list (string * JsError)
}.

Definition set_q (v : string) (s : State) : State :=
  {| q := v;
     tab := tab s;
     items := items s;
     loading := loading s;
     counts := counts s;
     dialogOpen := dialogOpen s;
     dialogData := dialogData s;
     debouncedQ := debouncedQ s;
     timer := timer s;
     now := now s;
     cycles := cycles s;
     console := console s |}.

Definition set_tab (v : TabName) (s : State) : State :=
  {| q := q s;
     tab := v;
     items := items s;
     loading := loading s;
     counts := counts s;
     dialogOpen := dialogOpen s;
     dialogData := dialogData s;
     debouncedQ := debouncedQ s;
     timer := timer s;
     now := now s;
     cycles := cycles s;
     console := console s |}.

Definition set_items (v : list Item) (s : State) : State :=
  {| q := q s;
     tab := tab s;
     items := v;
     loading := loading s;
     counts := counts s;
     dialogOpen := dialogOpen s;
     dialogData := dialogData s;
     debouncedQ := debouncedQ s;
     timer := timer s;
     now := now s;
     cycles := cycles s;
     console := console s |}.

Definition set_loading (v : bool) (s : State) : State :=
  {| q := q s;
     tab := tab s;
     items := items s;
     loading := v;
     counts := counts s;
     dialogOpen := dialogOpen s;
     dialogData := dialogData s;
     debouncedQ := debouncedQ s;
     timer := timer s;
     now := now s;
     cycles := cycles s;
     console := console s |}.

Definition set_counts (v : Counts) (s : State) : State :=
  {| q := q s;
     tab := tab s;
     items := items s;
     loading := loading s;
     counts := v;
     dialogOpen := dialogOpen s;
     dialogData := dialogData s;
     debouncedQ := debouncedQ s;
     timer := timer s;
     now := now s;
     cycles := cycles s;
     console := console s |}.

Definition set_dialogOpen (v : bool) (s : State) : State :=
  {| q := q s;
     tab := tab s;
     items := items s;
     loading := loading s;
     counts := counts s;
     dialogOpen := v;
     dialogData := dialogData s;
     debouncedQ := debouncedQ s;
     timer := timer s;
     now := now s;
     cycles := cycles s;
     console := console s |}.

Definition set_dialogData (v : option DialogData) (s : State) : State :=
  {| q := q s;
     tab := tab s;
     items := items s;
     loading := loading s;
     counts := counts s;
     dialogOpen := dialogOpen s;
     dialogData := v;
     debouncedQ := debouncedQ s;
     timer := timer s;
     now := now s;
     cycles := cycles s;
     console := console s |}.

Definition set_debouncedQ (v : string) (s : State) : State :=
  {| q := q s;
     tab := tab s;
     items := items s;
     loading := loading s;
     counts := counts s;
     dialogOpen := dialogOpen s;
     dialogData := dialogData s;
     debouncedQ := v;
     timer := timer s;
     now := now s;
     cycles := cycles s;
     console := console s |}.

Definition set_timer (v : option nat) (s : State) : State :=
  {| q := q s;
     tab := tab s;
     items := items s;
     loading := loading s;
     counts := counts s;
     dialogOpen := dialogOpen s;
     dialogData := dialogData s;
     debouncedQ := debouncedQ s;
     timer := v;
     now := now s;
     cycles := cycles s;
     console := console s |}.

Definition set_now (v : nat) (s : State) : State :=
  {| q := q s;
     tab := tab s;
     items := items s;
     loading := loading s;
     counts := counts s;
     dialogOpen := dialogOpen s;
     dialogData := dialogData s;
     debouncedQ := debouncedQ s;
     timer := timer s;
     now := v;
     cycles := cycles s;
     console := console s |}.

Definition set_cycles (v : list Cycle) (s : State) : State :=
  {| q := q s;
     tab := tab s;
     items := items s;
     loading := loading s;
     counts := counts s;
     dialogOpen := dialogOpen s;
     dialogData := dialogData s;
     debouncedQ := debouncedQ s;
     timer := timer s;
     now := now s;
     cycles := v;
     console := console s |}.

Definition set_console (v : list (string * JsError)) (s : State) : State :=
  {| q := q s;
     tab := tab s;
     items := items s;
     loading := loading s;
     counts := counts s;
     dialogOpen := dialogOpen s;
     dialogData := dialogData s;
     debouncedQ := debouncedQ s;
     timer := timer s;
     now := now s;
     cycles := cycles s;
     console := v |}.

Definition set_outcome (o : Settlement) (cy : Cycle) : Cycle :=
  {| cy_tab := cy_tab cy; cy_qv := cy_qv cy;
     cy_url_playlist := cy_url_playlist cy; cy_url_media := cy_url_media cy;
     cy_started_at := cy_started_at cy;
     cy_playlist := cy_playlist cy; cy_media := cy_media cy;
     cy_outcome := Some o |}.

Definition slot (documentType : DocumentType) (cy : Cycle) : option FetchOneResult :=
  match documentType with playlist => cy_playlist cy | media => cy_media cy end.

Definition fill_slot (documentType : DocumentType) (r : FetchOneResult) (cy : Cycle) : Cycle :=
  {| cy_tab := cy_tab cy; cy_qv := cy_qv cy;
     cy_url_playlist := cy_url_playlist cy; cy_url_media := cy_url_media cy;
     cy_started_at := cy_started_at cy;
     cy_playlist := match documentType with playlist => Some r | media => cy_playlist cy end;
     cy_media := match documentType with playlist => cy_media cy | media => Some r end;
     cy_outcome := cy_outcome cy |}.

Section App.

Variable VITE_API_BASE_URL : Nullable string.

(** [fetchData], from its first statement to its [return] or [await]. *)
Definition fetchData (s : State) : State :=
  let qv := trim (debouncedQ s) in
  if negb (truthy qv) then
    let s := set_items [] s in
    set_counts zero_counts s
  else
    let s := set_loading true s in
    set_cycles
      (cycles s ++
       [ {| cy_tab := tab s; cy_qv := qv;
            cy_url_playlist := fetchOne_url VITE_API_BASE_URL playlist qv;
            cy_url_media := fetchOne_url VITE_API_BASE_URL media qv;
            cy_started_at := now s;
            cy_playlist := None; cy_media := None; cy_outcome := None |} ]) s.

(** [fetchData] after the [await]; [tab] is the tab the call closed
    over. *)
Definition fetchData_resume (tab : TabName) (o : Settlement) (s : State) : State :=
  let s :=
    match o with
    | Resolved seriesRes episodesRes =>
        let s := set_counts {| c_series := total seriesRes; c_episodes := total episodesRes |} s in
        match tab with
        | tab_series => set_items (mapped seriesRes) s
        | tab_episodes => set_items (mapped episodesRes) s
        end
    | Rejected err =>
        let s := set_console (console s ++ [("Search fetch failed", err)]) s in
        let s := set_items [] s in
        set_counts zero_counts s
    end in
  set_loading false s.

Definition settle (c : nat) (cy : Cycle) (o : Settlement) (s : State) : State :=
  let s := set_cycles (<[c := set_outcome o cy]> (cycles s)) s in
  fetchData_resume (cy_tab cy) o s.

Definition deliver (c : nat) (documentType : DocumentType) (net : NetResult) (s : State) : State :=
  match cycles s !! c with
  | None => s
  | Some cy =>
      match cy_outcome cy, slot documentType cy with
      | Some _, _ => s
      | None, Some _ => s
      | None, None =>
          match fetchOne net with
          | inl err => settle c cy (Rejected err) s
          | inr r =>
              let cy := fill_slot documentType r cy in
              match cy_playlist cy, cy_media cy with
              | Some seriesRes, Some episodesRes => settle c cy (Resolved seriesRes episodesRes) s
              | _, _ => set_cycles (<[c := cy]> (cycles s)) s
              end
          end
      end
  end.

(** Modelled from the spec: the hook [useDebounce] is not among the
    sources; a changed [q] restarts the quiescence window. *)
Definition useDebounce_change (s : State) : State :=
  set_timer (Some (now s + quiescence)) s.

(** Modelled from the spec: the hook [useDebounce] is not among the
    sources; at the end of the window the debounced value takes the value
    of the query. [fetchData] depends on [debouncedQ] and [tab]. *)
Definition useDebounce_expire (s : State) : State :=
  let s := set_timer None s in
  if String.eqb (debouncedQ s) (q s) then s
  else fetchData (set_debouncedQ (q s) s).

Definition TabName_eqb (a b : TabName) : bool :=
  match a, b with tab_series, tab_series | tab_episodes, tab_episodes => true | _, _ => false end.

Inductive Event : Type :=
| SetQ (text : string)
| SetTab (t : TabName)
| CardClick (it : Item)
| CloseDialog
| Advance (d : nat)
| Deliver (c : nat) (documentType : DocumentType) (net : NetResult).

Definition advance (d : nat) (s : State) : State :=
  match timer s with
  | Some due =>
      if (due <=? now s + d)%nat
      then set_now (now s + d) (useDebounce_expire (set_now (Nat.max (now s) due) s))
      else set_now (now s + d) s
  | None => set_now (now s + d) s
  end.

Definition step (s : State) (e : Event) : State :=
  match e with
  | SetQ text =>
      if String.eqb text (q s) then s else useDebounce_change (set_q text s)
  | SetTab t =>
      if TabName_eqb t (tab s) then s else fetchData (set_tab t s)
  | CardClick it =>
      set_dialogOpen true
        (set_dialogData
           (Some (match it_raw it with Some r => RawRecord r | None => MinimalItem it end)) s)
  | CloseDialog => set_dialogOpen false s
  | Advance d => advance d s
  | Deliver c documentType net => deliver c documentType net s
  end.

Definition run (s : State) (tr : list Event) : State := fold_left step tr s.

End App.

Definition init : State :=
  {| q := ""; tab := tab_series; items := []; loading := false; counts := zero_counts;
     dialogOpen := false; dialogData := None; debouncedQ := "";
     timer := None; now := 0; cycles := []; console := [] |}.

Definition mounted (env : Nullable string) : State := fetchData env init.

Definition is_kind (k : Kind) (it : Item) : bool :=
  match k, it_kind it with series, series | episode, episode => true | _, _ => false end.

(** The two [useMemo] lists and the list on screen. *)
Definition series_list (s : State) : list Item :=
  List.filter (is_kind series) (match items s with [] => MOCK | _ :: _ => items s end).

Definition episodes_list (s : State) : list Item :=
  List.filter (is_kind episode) (match items s with [] => MOCK | _ :: _ => items s end).

Definition visible (s : State) : list Item :=
  match tab s with tab_series => series_list s | tab_episodes => episodes_list s end.

End Rev1.

(* ===================================================================== *)
(** ** The revision that renders a fixed catalog                            *)
(* ===================================================================== *)

(** [src/App.tsx]: no API; the two tabs split a constant list by kind and
    the counts are the lengths of the two parts. *)
Module Mock.

Record Item : Type := {
  m_id : string;
  m_kind : Kind;
  m_title : string;
  m_description : option string;
  m_image : string
}.

Definition unsplash (photo : string) : string :=
  "https://images.unsplash.com/photo-" ++ photo ++ "?q=80&w=1200&auto=format&fit=crop".

Definition MOCK : list Item :=
  [ {| m_id := "s1"; m_kind := series; m_title := "Better Together";
       m_description := Some "A series about faith and life.";
       m_image := unsplash "1495567720989-cebdbdd97913" |};
    {| m_id := "e1"; m_kind := episode; m_title := "Andy Stanley | Praise";
       m_description := Some "Christmas generosity and hope.";
       m_image := unsplash "1541701494587-cb58502866ab" |};
    {| m_id := "e2"; m_kind := episode; m_title := "ICON (Part 1)";
       m_description := Some "Faith and purpose.";
       m_image := unsplash "1522199794611-8e3e3ca7fbff" |};
    {| m_id := "e3"; m_kind := episode; m_title := "Under The Circumstances (Part 1)";
       m_description := Some "Finding peace.";
       m_image := unsplash "1531297484001-80022131f5a1" |};
    {| m_id := "e4"; m_kind := episode; m_title := "Irresistible";
       m_description := Some "Engaging the culture.";
       m_image := unsplash "1469474968028-56623f02e42e" |};
    {| m_id := "e5"; m_kind := episode; m_title := "Guests: Andy Erwin & Brian Kilmeade";
       m_description := Some "S1 E115";
       m_image := unsplash "1496181133206-80ce9b88a853" |};
    {| m_id := "e6"; m_kind := episode; m_title := "ICON (Part 2)";
       m_description := Some "";
       m_image := unsplash "1487017159836-4e23ece2e4cf" |};
    {| m_id := "e7"; m_kind := episode; m_title := "ICON (Part 3)";
       m_description := Some "";
       m_image := unsplash "1494122477875-d3d3e5c2e277" |};
    {| m_id := "e8"; m_kind := episode; m_title := "ICON (Part 4)";
       m_description := Some "";
       m_image := unsplash "1517817748491-58e3b4079ab2" |} ].

Definition has_kind (k : Kind) (i : Item) : bool :=
  match k, m_kind i with series, series | episode, episode => true | _, _ => false end.

(** The state of [App]: the text of the search box and the tab. *)
Record State : Type := { q : string; tab : TabName }.

Definition init : State := {| q := ""; tab := tab_episodes |}.

Inductive Event : Type :=
| SetQ (text : string)
| SetTab (t : TabName).

Definition step (s : State) (e : Event) : State :=
  match e with
  | SetQ text => {| q := text; tab := tab s |}
  | SetTab t => {| q := q s; tab := t |}
  end.

(** The body of [App] over its catalog: the two [useMemo] lists, the
    counts and the list on screen. *)
Section Catalog.

Variable catalog : list Item.

Definition series_list : list Item := List.filter (has_kind series) catalog.
Definition episodes_list : list Item := List.filter (has_kind episode) catalog.

Definition counts : Counts :=
  {| c_series := Z.of_nat (length series_list);
     c_episodes := Z.of_nat (length episodes_list) |}.

Definition visible (s : State) : list Item :=
  match tab s with tab_series => series_list | tab_episodes => episodes_list end.

End Catalog.

End Mock.

(** The value of a hexadecimal digit. *)
Definition hex_val (c : ascii) : option nat :=
  let n := nat_of_ascii c in
  (if (48 <=? n) && (n <=? 57) then Some (n - 48)
   else if (65 <=? n) && (n <=? 70) then Some (n - 55)
   else if (97 <=? n) && (n <=? 102) then Some (n - 87)
   else None)%nat.

(** How the receiver of a form-urlencoded string reads a name or a value
    back: [+] is a blank, [%XX] the byte XX. *)
Fixpoint urldecode (s : string) : string :=
  match s with
  | EmptyString => ""
  | String c rest =>
      if Ascii.eqb c "+" then String " " (urldecode rest)
      else if Ascii.eqb c "%" then
        match rest with
        | String h1 (String h2 rest') =>
            match hex_val h1, hex_val h2 with
            | Some a, Some b => String (ascii_of_nat (16 * a + b)) (urldecode rest')
            | _, _ => String c (urldecode rest)
            end
        | _ => String c (urldecode rest)
        end
      else String c (urldecode rest)
  end.

(** The pieces of a string between the occurrences of a character. *)
Fixpoint split_on (c : ascii) (s : string) : list string :=
  match s with
  | EmptyString => [""]
  | String x rest =>
      if Ascii.eqb x c then "" :: split_on c rest
      else match split_on c rest with
           | h :: t => String x h :: t
           | [] => [String x ""]
           end
  end.

(** What stands before and after the first occurrence of a character. *)
Fixpoint split_first (c : ascii) (s : string) : string * string :=
  match s with
  | EmptyString => ("", "")
  | String x rest =>
      if Ascii.eqb x c then ("", rest)
      else let (before, after) := split_first c rest in (String x before, after)
  end.

(** The form-urlencoded parser of the URL standard, the reading of a query
    string by its receiver: the non-empty pieces between [&], each split
    at its first [=], both sides decoded. *)
Definition form_parse (query : string) : list (string * string) :=
  map (fun piece => let (name, value) := split_first "=" piece in
                    (urldecode name, urldecode value))
    (List.filter (fun piece => negb (String.eqb piece "")) (split_on "&" query)).

(* ===================================================================== *)
(** ** Basic facts about [fetchData] and [deliver]                          *)
(* ===================================================================== *)

Lemma truthy_false (x : string) : truthy x = false -> x = "".
Proof.
  unfold truthy. intros H. apply String.eqb_eq.
  destruct (String.eqb x ""); [reflexivity | discriminate].
Qed.

Lemma length_aborted_cycles (s : State) : length (aborted_cycles s) = length (cycles s).
Proof.
  unfold aborted_cycles. destruct (abortRef s); [apply length_alter | reflexivity].
Qed.

(** [fetchData] up to its [await], field by field. *)
Lemma fetchData_unfold (s : State) :
  fetchData s =
  set_cycles (aborted_cycles s ++ [new_cycle s])
    (set_loading true (set_abortRef (Some (length (cycles s))) s)).
Proof.
  unfold fetchData, launch, new_cycle.
  assert (Hc : cycles (abort_current s) = aborted_cycles s).
  { unfold abort_current, aborted_cycles. destruct (abortRef s); reflexivity. }
  assert (Hl : length (cycles (abort_current s)) = length (cycles s)).
  { rewrite Hc. apply length_aborted_cycles. }
  rewrite Hl.
  assert (Hrest : forall v, set_abortRef v (abort_current s)
                            = set_cycles (aborted_cycles s) (set_abortRef v s)).
  { intros v. unfold abort_current, aborted_cycles.
    destruct s as [? ? ? ? ? ? [c|] ? ? ? ? ? ? ? ? ? ?]; reflexivity. }
  rewrite Hrest. simpl.
  destruct (truthy (trim (debouncedQ s))) eqn:Ht; simpl.
  - destruct s; reflexivity.
  - apply truthy_false in Ht. rewrite Ht. destruct s; reflexivity.
Qed.

Lemma deliver_dialogData c dt net s : dialogData (deliver c dt net s) = dialogData s.
Proof. frame_deliver. Qed.

Lemma useDebounce_expire_dialogData s : dialogData (useDebounce_expire s) = dialogData s.
Proof.
  unfold useDebounce_expire. simpl. case_match; [reflexivity|].
  rewrite fetchData_unfold. reflexivity.
Qed.

Lemma advance_dialogData d s : dialogData (advance d s) = dialogData s.
Proof.
  unfold advance. repeat case_match; simpl; try reflexivity.
  rewrite useDebounce_expire_dialogData. reflexivity.
Qed.

Lemma step_dialogData (s : State) (e : Event) :
  dialogData (step s e)
  = match e with
    | CardClick it =>
        Some (match it_raw it with Some r => RawRecord r | None => MinimalItem it end)
    | _ => dialogData s
    end.
Proof.
  destruct e; simpl; try reflexivity.
  - case_match; reflexivity.
  - case_match; [reflexivity|]. rewrite fetchData_unfold. reflexivity.
  - case_match; [reflexivity|]. rewrite fetchData_unfold. reflexivity.
  - rewrite fetchData_unfold. reflexivity.
  - apply advance_dialogData.
  - apply deliver_dialogData.
Qed.

(* ===================================================================== *)
(** ** Responses and requests                                               *)
(* ===================================================================== *)

(** C10, as stated, fails: a response that has its results but lacks the
    total field is a response lacking one of the three parts, and
    [fetchOne] returns its mapped records, not an empty list. *)
Lemma fetchOne_missing_total_keeps_items :
  ~ empties_whole_result 200 (envelope (jsVal [sample_record "e1" media]) jsUndefined).
Proof.
  unfold empties_whole_result, lacks_part. intros H.
  assert (Hl : mapped {| mapped := []; total := 0 |}
               = [mapApiToItem (sample_record "e1" media)]).
  { specialize (H (or_intror (or_intror eq_refl))).
    vm_compute in H. injection H as H. discriminate H. }
  discriminate Hl.
Qed.

(** C10 (amended): for every response whose body parses as JSON, whatever
    its status, [fetchOne] returns and does not throw, each missing part
    defaulted on its own: without the data object the list is empty and
    the total 0; without the results array the list is empty; without the
    total field the total is 0; what is present is kept. [mapApiToItem]
    turns a missing description into the empty string and keeps the
    record it was given, unmodified, in [raw]. *)
Theorem fetchOne_defaults (st : nat) (j : Nullable ApiResponse) :
  (exists r,
      fetchOne false (Arrived {| status := st; body := Json j |}) = inr r
      /\ (is_nullish (optchain j r_data) = true -> mapped r = [] /\ total r = 0%Z)
      /\ (is_nullish (optchain (optchain j r_data) d_results) = true -> mapped r = [])
      /\ (is_nullish (optchain (optchain j r_data) d_total) = true -> total r = 0%Z)
      /\ (forall rs, optchain (optchain j r_data) d_results = jsVal rs ->
                     mapped r = map mapApiToItem rs)
      /\ (forall t, optchain (optchain j r_data) d_total = jsVal t -> total r = t))
  /\ (forall ai,
         (is_nullish (ai_description ai) = true ->
          it_description (mapApiToItem ai) = Some "")
         /\ it_raw (mapApiToItem ai) = Some ai).
Proof.
  split.
  - unfold fetchOne, fetch, json. simpl. eexists. split; [reflexivity|]. simpl.
    repeat split.
    + destruct (optchain j r_data); simpl in *; congruence.
    + destruct (optchain j r_data); simpl in *; congruence.
    + intros H. destruct (optchain (optchain j r_data) d_results); simpl in *; congruence.
    + intros H. destruct (optchain (optchain j r_data) d_total); simpl in *; congruence.
    + intros rs ->. reflexivity.
    + intros t ->. reflexivity.
  - intros ai. split; [|reflexivity].
    unfold mapApiToItem. simpl. destruct (ai_description ai); simpl; congruence.
Qed.

Lemma fetchOne_defaults_witness :
  exists r,
    fetchOne false (Arrived {| status := 200; body := Json (jsVal {| r_message := jsVal "ok"; r_data := jsNull |}) |})
    = inr r /\ mapped r = [] /\ total r = 0%Z.
Proof.
  destruct (fetchOne_defaults 200 (jsVal {| r_message := jsVal "ok"; r_data := jsNull |}))
    as [[r (Hr & Hd & _)] _].
  exists r. split; [exact Hr|]. apply Hd. reflexivity.
Defined.

(* ===================================================================== *)
(** ** Tabs and the detail dialog                                           *)
(* ===================================================================== *)

(** C9: closing the dialog changes the open flag and nothing else, the
    held record included; the held record changes only when a card is
    clicked, and then becomes the raw record of the clicked item, or the
    item itself when it has no raw record. *)
Theorem dialog_keeps_record (s : State) :
  set_dialogOpen (dialogOpen s) (step s CloseDialog) = s
  /\ dialogOpen (step s CloseDialog) = false
  /\ dialogData (step s CloseDialog) = dialogData s
  /\ (forall e,
         dialogData (step s e)
         = match e with
           | CardClick it =>
               Some (match it_raw it with Some r => RawRecord r | None => MinimalItem it end)
           | _ => dialogData s
           end)
  /\ (forall it, dialogOpen (step s (CardClick it)) = true)
  /\ (forall it, dialogData (step (step (step s (CardClick it)) CloseDialog) (CardClick it))
                 = dialogData (step s (CardClick it))).
Proof.
  repeat split; try (destruct s; reflexivity).
  apply step_dialogData.
Qed.

(** C6: [setTab] changes which of the two held lists is rendered and
    nothing else: no call of [fetchData] is made (no cycle is added,
    none is aborted), the counts and both item lists stay as they were,
    and the debounce timer is not touched. *)
Theorem setTab_frame (s : State) (t : TabName) :
  set_tab (tab s) (step s (SetTab t)) = s
  /\ tab (step s (SetTab t)) = t
  /\ visible (step s (SetTab t))
     = match t with tab_series => seriesItems s | tab_episodes => episodeItems s end
  /\ cycles (step s (SetTab t)) = cycles s
  /\ abortRef (step s (SetTab t)) = abortRef s
  /\ counts (step s (SetTab t)) = counts s
  /\ seriesItems (step s (SetTab t)) = seriesItems s
  /\ episodeItems (step s (SetTab t)) = episodeItems s
  /\ timer (step s (SetTab t)) = timer s
  /\ loading (step s (SetTab t)) = loading s.
Proof.
  repeat split; destruct s; reflexivity.
Qed.

(* ===================================================================== *)
(** ** One cycle: delivery of the two responses                             *)
(* ===================================================================== *)

Lemma deliver_reject (s : State) c cy dt net err :
  cycles s !! c = Some cy -> cy_outcome cy = None -> slot dt cy = None ->
  fetchOne (cy_aborted cy) net = inl err ->
  deliver c dt net s = settle c cy (Rejected err) s.
Proof.
  intros Hc Ho Hs Hf. unfold deliver. rewrite Hc, Ho, Hs, Hf. reflexivity.
Qed.

Lemma deliver_first (s : State) c cy dt net r :
  cycles s !! c = Some cy -> cy_outcome cy = None -> slot dt cy = None ->
  slot (other dt) cy = None ->
  fetchOne (cy_aborted cy) net = inr r ->
  deliver c dt net s = set_cycles (<[c := fill_slot dt r cy]> (cycles s)) s.
Proof.
  intros Hc Ho Hs Hs' Hf. unfold deliver. rewrite Hc, Ho, Hs, Hf.
  destruct dt; simpl in *; rewrite Hs'; reflexivity.
Qed.

Lemma deliver_last (s : State) c cy dt net r r' :
  cycles s !! c = Some cy -> cy_outcome cy = None -> slot dt cy = None ->
  slot (other dt) cy = Some r' ->
  fetchOne (cy_aborted cy) net = inr r ->
  deliver c dt net s
  = settle c (fill_slot dt r cy)
      (match dt with playlist => Resolved r r' | media => Resolved r' r end) s.
Proof.
  intros Hc Ho Hs Hs' Hf. unfold deliver. rewrite Hc, Ho, Hs, Hf.
  destruct dt; simpl in *; rewrite Hs'; reflexivity.
Qed.

Lemma settle_resolved (s : State) c cy a b :
  let s' := settle c cy (Resolved a b) s in
  seriesItems s' = mapped a /\ episodeItems s' = mapped b
  /\ counts s' = {| c_series := total a; c_episodes := total b |}
  /\ loading s' = false /\ console s' = console s.
Proof.
  unfold settle, fetchData_resume. destruct (cy_branch cy); simpl; auto.
Qed.

(** Both requests of a cycle that is in flight and not cancelled resolve,
    in either order: the results of the two are committed together. *)
Lemma cycle_success (s : State) c cy np nm rp rm s' :
  cycles s !! c = Some cy -> cy_outcome cy = None -> cy_aborted cy = false ->
  cy_playlist cy = None -> cy_media cy = None ->
  fetchOne false np = inr rp -> fetchOne false nm = inr rm ->
  s' = run s [Deliver c playlist np; Deliver c media nm]
  \/ s' = run s [Deliver c media nm; Deliver c playlist np] ->
  seriesItems s' = mapped rp /\ episodeItems s' = mapped rm
  /\ counts s' = {| c_series := total rp; c_episodes := total rm |}
  /\ loading s' = false /\ console s' = console s.
Proof.
  intros Hc Ho Ha Hp Hm Hrp Hrm Hs'.
  assert (Hlt : c < length (cycles s)) by (eapply lookup_lt_Some; eauto).
  destruct Hs' as [-> | ->]; unfold run; simpl.
  - rewrite (deliver_first s c cy playlist np rp); auto; [|rewrite Ha; auto].
    erewrite (deliver_last _ c (fill_slot playlist rp cy) media nm rm rp); simpl; eauto.
    + lazymatch goal with
      | |- context [settle ?k ?y (Resolved ?a ?b) ?st] =>
          pose proof (settle_resolved st k y a b) as H
      end.
      simpl in H. exact H.
    + apply list_lookup_insert_eq. exact Hlt.
    + rewrite Ha; auto.
  - rewrite (deliver_first s c cy media nm rm); auto; [|rewrite Ha; auto].
    erewrite (deliver_last _ c (fill_slot media rm cy) playlist np rp rm); simpl; eauto.
    + lazymatch goal with
      | |- context [settle ?k ?y (Resolved ?a ?b) ?st] =>
          pose proof (settle_resolved st k y a b) as H
      end.
      simpl in H. exact H.
    + apply list_lookup_insert_eq. exact Hlt.
    + rewrite Ha; auto.
Qed.

Lemma mounted_cycle :
  cycles mounted !! 0 = Some (new_cycle init).
Proof. reflexivity. Qed.

(** C3: when a cycle succeeds, the count shown on each tab is the total
    field of the response for that category, whatever records came with
    it and however many: it is not the length of the list held. *)
Theorem counts_are_api_totals (s : State) (c : nat) (cy : Cycle)
    (stp stm : nat) (mp mm : Nullable string) (dp dm : ApiData) (tp tm : Z) (s' : State) :
  cycles s !! c = Some cy -> cy_outcome cy = None -> cy_aborted cy = false ->
  cy_playlist cy = None -> cy_media cy = None ->
  d_total dp = jsVal tp -> d_total dm = jsVal tm ->
  let np := Arrived {| status := stp; body := Json (jsVal {| r_message := mp; r_data := jsVal dp |}) |} in
  let nm := Arrived {| status := stm; body := Json (jsVal {| r_message := mm; r_data := jsVal dm |}) |} in
  s' = run s [Deliver c playlist np; Deliver c media nm]
  \/ s' = run s [Deliver c media nm; Deliver c playlist np] ->
  displayed_count tab_series s' = tp
  /\ displayed_count tab_episodes s' = tm
  /\ seriesItems s' = map mapApiToItem (nullish (d_results dp) [])
  /\ episodeItems s' = map mapApiToItem (nullish (d_results dm) []).
Proof.
  intros Hc Ho Ha Hp Hm Htp Htm np nm Hs'.
  destruct (cycle_success s c cy np nm
              {| mapped := map mapApiToItem (nullish (d_results dp) []); total := tp |}
              {| mapped := map mapApiToItem (nullish (d_results dm) []); total := tm |}
              s' Hc Ho Ha Hp Hm) as (H1 & H2 & H3 & _); auto.
  - unfold fetchOne; simpl. rewrite Htp. reflexivity.
  - unfold fetchOne; simpl. rewrite Htm. reflexivity.
  - unfold displayed_count. rewrite H1, H2, H3. auto.
Qed.

Lemma counts_are_api_totals_witness :
  let s' := run mounted
              [Deliver 0 media (ok_response [sample_record "e1" media; sample_record "e2" media] 42);
               Deliver 0 playlist (ok_response [sample_record "s1" playlist] 3)] in
  displayed_count tab_series s' = 3%Z /\ displayed_count tab_episodes s' = 42%Z
  /\ length (episodeItems s') = 2.
Proof.
  destruct (counts_are_api_totals mounted 0 (new_cycle init) 200 200 (jsVal "ok") (jsVal "ok")
              {| d_engine := jsVal "al"; d_limit := jsVal 500%Z; d_page := jsVal 1%Z;
                 d_results := jsVal [sample_record "s1" playlist]; d_total := jsVal 3%Z |}
              {| d_engine := jsVal "al"; d_limit := jsVal 500%Z; d_page := jsVal 1%Z;
                 d_results := jsVal [sample_record "e1" media; sample_record "e2" media];
                 d_total := jsVal 42%Z |}
              3%Z 42%Z _ mounted_cycle eq_refl eq_refl eq_refl eq_refl eq_refl eq_refl
              (or_intror eq_refl)) as (H1 & H2 & _ & H4).
  split; [exact H1|]. split; [exact H2|].
  unfold ok_response, envelope. rewrite H4. reflexivity.
Defined.

(* ===================================================================== *)
(** ** Browse-all, failure and cancellation                                 *)
(* ===================================================================== *)

Lemma fetchData_new_cycle (s : State) :
  cycles (fetchData s) !! length (cycles s) = Some (new_cycle s).
Proof.
  rewrite fetchData_unfold. simpl.
  rewrite lookup_app_r; rewrite length_aborted_cycles; [|lia].
  rewrite Nat.sub_diag. reflexivity.
Qed.

Lemma fetchOne_params_q (documentType : DocumentType) (qv : string) (f : Filters) :
  params_get "q" (fetchOne_params documentType qv f) = Some qv.
Proof.
  unfold fetchOne_params.
  destruct (truthy (f_language f)), (f_tags f) as [|t ts]; reflexivity.
Qed.

(** The two branches of [fetchData] do the same to the state, up to the
    label of the console entry. *)
Lemma fetchData_resume_branches (o : Settlement) (st : State) :
  set_console (console st) (fetchData_resume BrowseAll o st)
  = set_console (console st) (fetchData_resume Search o st).
Proof.
  unfold fetchData_resume, console_error.
  destruct o as [a b | err]; [reflexivity|].
  destruct (String.eqb (err_name err) "AbortError"); reflexivity.
Qed.

(** C5: with an empty trimmed debounced query, [fetchData] still starts a
    cycle: it issues the playlist and the media request with the empty
    term and the current filters, clears nothing, and commits the listings
    and totals that come back; what it does on settlement is what the
    search branch does (the console label of a failure apart). *)
Theorem browse_all_cycle (s : State) :
  trim (debouncedQ s) = "" ->
  let c := length (cycles s) in
  let s1 := fetchData s in
  abortRef s1 = Some c /\ loading s1 = true
  /\ cycles s1 !! c
     = Some {| cy_branch := BrowseAll; cy_qv := "";
               cy_url_playlist := fetchOne_url playlist "" (filters s);
               cy_url_media := fetchOne_url media "" (filters s);
               cy_started_at := now s; cy_aborted := false;
               cy_playlist := None; cy_media := None; cy_outcome := None |}
  /\ length (cycles s1) = S c
  /\ params_get "q" (fetchOne_params playlist "" (filters s)) = Some ""
  /\ params_get "q" (fetchOne_params media "" (filters s)) = Some ""
  /\ seriesItems s1 = seriesItems s /\ episodeItems s1 = episodeItems s
  /\ counts s1 = counts s
  /\ (forall np nm rp rm s2,
         fetchOne false np = inr rp -> fetchOne false nm = inr rm ->
         s2 = run s1 [Deliver c playlist np; Deliver c media nm]
         \/ s2 = run s1 [Deliver c media nm; Deliver c playlist np] ->
         seriesItems s2 = mapped rp /\ episodeItems s2 = mapped rm
         /\ counts s2 = {| c_series := total rp; c_episodes := total rm |}
         /\ loading s2 = false)
  /\ (forall a b st,
         fetchData_resume BrowseAll (Resolved a b) st
         = fetchData_resume Search (Resolved a b) st)
  /\ (forall o st,
         set_console (console st) (fetchData_resume BrowseAll o st)
         = set_console (console st) (fetchData_resume Search o st)).
Proof.
  intros Hq c s1.
  assert (Hnew : cycles s1 !! c = Some (new_cycle s)) by apply fetchData_new_cycle.
  assert (Hcy : new_cycle s
                = {| cy_branch := BrowseAll; cy_qv := "";
                     cy_url_playlist := fetchOne_url playlist "" (filters s);
                     cy_url_media := fetchOne_url media "" (filters s);
                     cy_started_at := now s; cy_aborted := false;
                     cy_playlist := None; cy_media := None; cy_outcome := None |}).
  { unfold new_cycle. rewrite Hq. reflexivity. }
  assert (Hs1 : s1 = set_cycles (aborted_cycles s ++ [new_cycle s])
                       (set_loading true (set_abortRef (Some c) s)))
    by apply fetchData_unfold.
  split; [rewrite Hs1; reflexivity|].
  split; [rewrite Hs1; reflexivity|].
  split; [rewrite Hnew, Hcy; reflexivity|].
  split.
  { rewrite Hs1. simpl. rewrite length_app, length_aborted_cycles. simpl. subst c. lia. }
  split; [apply fetchOne_params_q|].
  split; [apply fetchOne_params_q|].
  split; [rewrite Hs1; reflexivity|].
  split; [rewrite Hs1; reflexivity|].
  split; [rewrite Hs1; reflexivity|].
  split.
  { intros np nm rp rm s2 Hrp Hrm Hs2.
    destruct (cycle_success s1 c (new_cycle s) np nm rp rm s2 Hnew
                eq_refl eq_refl eq_refl eq_refl Hrp Hrm Hs2) as (H1 & H2 & H3 & H4 & _).
    auto. }
  split; [reflexivity|].
  apply fetchData_resume_branches.
Qed.

Lemma browse_all_cycle_witness :
  abortRef (fetchData (set_debouncedQ "  " mounted)) = Some 1
  /\ loading (fetchData (set_debouncedQ "  " mounted)) = true.
Proof.
  destruct (browse_all_cycle (set_debouncedQ "  " mounted) eq_refl) as (H1 & H2 & _).
  split; [exact H1 | exact H2].
Defined.

(** C2, as stated, fails: the cycle of the first render has its playlist
    results, the media request comes back with status 500 and a JSON
    error body; nothing is cleared and nothing is logged. *)
Lemma status_500_is_not_a_failure :
  ~ clears_on_failure
      (run mounted [Deliver 0 playlist (ok_response [sample_record "s1" playlist] 1)])
      0 media error_response.
Proof.
  unfold clears_on_failure. intros H.
  specialize (H _ eq_refl eq_refl eq_refl eq_refl eq_refl).
  destruct H as (H & _). vm_compute in H. discriminate H.
Qed.

Lemma settle_rejected (s : State) c cy err :
  err <> AbortError ->
  let s' := settle c cy (Rejected err) s in
  seriesItems s' = [] /\ episodeItems s' = [] /\ counts s' = zero_counts
  /\ (exists label, console s' = (console s ++ [(label, err)])%list)
  /\ loading s' = false.
Proof.
  intros Hne. unfold settle, fetchData_resume, console_error.
  destruct (cy_branch cy), err; try congruence; simpl; eauto 10.
Qed.

Lemma settle_aborted (s : State) c cy :
  let s' := settle c cy (Rejected AbortError) s in
  seriesItems s' = seriesItems s /\ episodeItems s' = episodeItems s
  /\ counts s' = counts s /\ console s' = console s /\ loading s' = false.
Proof.
  unfold settle, fetchData_resume. destruct (cy_branch cy); simpl; auto.
Qed.

(** C2 (amended): when a request of a cycle that is in flight and not
    cancelled fails in transport, or its body is not JSON, both lists are
    cleared, both counts are 0 and the failure is logged, the two cases
    alike; a request of a cancelled cycle leaves lists, counts and console
    as they are; the status of a response is never looked at, so a
    response outside 2xx is a failure only through its body. *)
Theorem cycle_failure (s : State) (c : nat) (cy : Cycle) (documentType : DocumentType)
    (net : NetResult) :
  cycles s !! c = Some cy -> cy_outcome cy = None -> slot documentType cy = None ->
  let s' := step s (Deliver c documentType net) in
  (cy_aborted cy = false ->
   net = NetworkFailure \/ (exists st, net = Arrived {| status := st; body := Malformed |}) ->
   seriesItems s' = [] /\ episodeItems s' = [] /\ counts s' = zero_counts
   /\ (exists label err, console s' = (console s ++ [(label, err)])%list /\ err <> AbortError)
   /\ loading s' = false)
  /\ (cy_aborted cy = true ->
      seriesItems s' = seriesItems s /\ episodeItems s' = episodeItems s
      /\ counts s' = counts s /\ console s' = console s)
  /\ (forall st1 st2 b,
         fetchOne (cy_aborted cy) (Arrived {| status := st1; body := b |})
         = fetchOne (cy_aborted cy) (Arrived {| status := st2; body := b |})).
Proof.
  intros Hc Ho Hs s'. subst s'. simpl. split; [|split].
  - intros Ha Hnet.
    assert (Hf : exists err, fetchOne (cy_aborted cy) net = inl err /\ err <> AbortError).
    { rewrite Ha. destruct Hnet as [-> | [st ->]].
      - exists TypeError. split; [reflexivity | discriminate].
      - exists SyntaxError. split; [reflexivity | discriminate]. }
    destruct Hf as (err & Hf & Hne).
    rewrite (deliver_reject s c cy documentType net err Hc Ho Hs Hf).
    destruct (settle_rejected s c cy err Hne) as (H1 & H2 & H3 & (label & H4) & H5).
    repeat split; auto. exists label, err. auto.
  - intros Ha.
    assert (Hf : fetchOne (cy_aborted cy) net = inl AbortError)
      by (rewrite Ha; reflexivity).
    rewrite (deliver_reject s c cy documentType net AbortError Hc Ho Hs Hf).
    destruct (settle_aborted s c cy) as (H1 & H2 & H3 & H4 & _). auto.
  - intros st1 st2 b. unfold fetchOne, fetch, json.
    destruct (cy_aborted cy); reflexivity.
Qed.

Lemma cycle_failure_witness :
  seriesItems (step mounted (Deliver 0 media NetworkFailure)) = []
  /\ counts (step mounted (Deliver 0 media NetworkFailure)) = zero_counts.
Proof.
  destruct (cycle_failure mounted 0 (new_cycle init) media NetworkFailure
              mounted_cycle eq_refl eq_refl) as (H & _).
  destruct (H eq_refl (or_introl eq_refl)) as (H1 & _ & H3 & _).
  split; [exact H1 | exact H3].
Defined.

(** C7, evaluated on the code: the first cycle is in flight, the engine is
    changed, which starts the second cycle and aborts the first; the first
    cycle then settles with its [AbortError], and its [finally] sets
    [loading] to false while the second cycle, which owns [abortRef] and
    had set [loading] to true, has not settled. *)
Theorem superseded_cycle_clears_loading :
  let s1 := run mounted [SetEngine es] in
  let s2 := step s1 (Deliver 0 playlist NetworkFailure) in
  abortRef s1 = Some 1 /\ loading s1 = true
  /\ (cy_aborted <$> cycles s1 !! 0) = Some true
  /\ (cy_outcome <$> cycles s2 !! 0) = Some (Some (Rejected AbortError))
  /\ abortRef s2 = Some 1
  /\ (cy_outcome <$> cycles s2 !! 1) = Some None
  /\ loading s2 = false.
Proof.
  vm_compute. repeat split; reflexivity.
Qed.

(* ===================================================================== *)
(** ** Supersession: the invariant of the reachable states                  *)
(* ===================================================================== *)

Lemma consistent_superseding (s : State) : consistent s -> superseding s.
Proof.
  intros (L & cy & H1 & H2 & _ & _ & _ & _ & _ & _ & _ & H10). exists L. auto.
Qed.

Lemma consistent_ext (s s' : State) :
  consistent s ->
  cycles s' = cycles s -> abortRef s' = abortRef s -> debouncedQ s' = debouncedQ s ->
  filters s' = filters s -> held s' = held s ->
  consistent s'.
Proof.
  intros (L & cy & H) Hc Ha Hd Hf Hh. exists L, cy.
  rewrite Hc, Ha, Hd, Hf, Hh. exact H.
Qed.

Lemma superseding_ext (s s' : State) :
  superseding s -> cycles s' = cycles s -> abortRef s' = abortRef s -> superseding s'.
Proof.
  intros (L & H) Hc Ha. exists L. rewrite Hc, Ha. exact H.
Qed.

(** A call of [fetchData] aborts the cycle that was current and makes its
    own cycle the current one. *)
Lemma fetchData_consistent (s : State) : superseding s -> consistent (fetchData s).
Proof.
  intros (L & Ha & Hlen & Hold).
  rewrite fetchData_unfold. exists (S L), (new_cycle s). simpl.
  assert (Hal : aborted_cycles s = alter set_aborted L (cycles s))
    by (unfold aborted_cycles; rewrite Ha; reflexivity).
  assert (Hlen' : length (aborted_cycles s) = S L)
    by (rewrite length_aborted_cycles; exact Hlen).
  split; [rewrite Hlen; reflexivity|].
  split; [rewrite length_app, Hlen'; simpl; lia|].
  split.
  { rewrite lookup_app_r; rewrite Hlen'; [|lia]. rewrite Nat.sub_diag. reflexivity. }
  split; [reflexivity|].
  split; [reflexivity|].
  split; [reflexivity|].
  split; [reflexivity|].
  split; [intros o Ho; discriminate Ho|].
  split; [intros a b Ho; discriminate Ho|].
  intros c cy' Hlt Hc.
  rewrite lookup_app_l in Hc by (rewrite Hlen'; lia).
  rewrite Hal in Hc.
  destruct (decide (c = L)) as [->|Hne].
  - rewrite list_lookup_alter_eq in Hc.
    destruct (cycles s !! L); simpl in Hc; [|discriminate].
    injection Hc as <-. reflexivity.
  - rewrite list_lookup_alter_ne in Hc by auto.
    apply (Hold c cy'); [lia | exact Hc].
Qed.

Lemma mounted_consistent : consistent mounted.
Proof.
  exists 0, (new_cycle init). repeat split; try discriminate.
  intros c cy' Hlt. lia.
Qed.

Lemma fetchOne_not_aborted (net : NetResult) (err : JsError) :
  fetchOne false net = inl err -> err <> AbortError.
Proof.
  unfold fetchOne, fetch, json. destruct net as [|r]; [intros [= <-]; discriminate|].
  destruct (body r); [intros [= <-]; discriminate | discriminate].
Qed.

Lemma settle_frame (s : State) c cy o :
  let s' := settle c cy o s in
  abortRef s' = abortRef s
  /\ cycles s' = <[c := set_outcome o cy]> (cycles s)
  /\ debouncedQ s' = debouncedQ s
  /\ filters s' = filters s
  /\ held s' = match o with
               | Rejected AbortError => held s
               | _ => committed o
               end.
Proof.
  unfold settle, fetchData_resume, console_error, held, filters.
  destruct (cy_branch cy), o as [a b | []]; simpl; auto.
Qed.

Lemma fetchOne_aborted (net : NetResult) : fetchOne true net = inl AbortError.
Proof. reflexivity. Qed.

Lemma consistent_intro (s : State) L cy :
  abortRef s = Some L -> length (cycles s) = S L -> cycles s !! L = Some cy ->
  cy_aborted cy = false ->
  cy_qv cy = trim (debouncedQ s) ->
  cy_url_playlist cy = fetchOne_url playlist (trim (debouncedQ s)) (filters s) ->
  cy_url_media cy = fetchOne_url media (trim (debouncedQ s)) (filters s) ->
  (forall o, cy_outcome cy = Some o -> held s = committed o /\ o <> Rejected AbortError) ->
  (forall a b, cy_outcome cy = Some (Resolved a b) ->
               cy_playlist cy = Some a /\ cy_media cy = Some b) ->
  (forall c cy', c < L -> cycles s !! c = Some cy' -> cy_aborted cy' = true) ->
  consistent s.
Proof.
  intros. exists L, cy. repeat (split; [assumption|]). assumption.
Qed.

(** A response to the current cycle is committed by that cycle; a
    response to an older cycle finds it aborted and changes neither lists
    nor counts. *)
Lemma deliver_consistent (s : State) c dt net :
  consistent s -> consistent (deliver c dt net s).
Proof.
  intros Hcons.
  pose proof Hcons as (L & cy & Ha & Hlen & HL & Hna & Hqv & Hup & Hum & Hout & Hslots & Hold).
  unfold deliver.
  destruct (cycles s !! c) as [cyc|] eqn:Hc; [|exact Hcons].
  destruct (cy_outcome cyc) eqn:Ho; [exact Hcons|].
  destruct (slot dt cyc) eqn:Hs; [exact Hcons|].
  assert (Hlt : c < length (cycles s)) by (eapply lookup_lt_Some; eauto).
  destruct (decide (c = L)) as [->|Hne].
  - assert (cyc = cy) by congruence. subst cyc. rewrite Hna.
    destruct (fetchOne false net) as [err|r] eqn:Hf.
    + destruct (settle_frame s L cy (Rejected err)) as (F1 & F2 & F3 & F4 & F5).
      pose proof (fetchOne_not_aborted net err Hf) as Herr.
      apply (consistent_intro _ L (set_outcome (Rejected err) cy));
        rewrite ?F1, ?F2, ?F3, ?F4, ?F5, ?length_insert; auto.
      * apply list_lookup_insert_eq. lia.
      * intros o [= <-]. split; [destruct err; congruence | congruence].
      * intros a b [=].
      * intros c cy' Hc' Hl. rewrite list_lookup_insert_ne in Hl by lia. eauto.
    + assert (Hfill : forall a b,
                 cy_playlist (fill_slot dt r cy) = Some a ->
                 cy_media (fill_slot dt r cy) = Some b ->
                 consistent (settle L (fill_slot dt r cy) (Resolved a b) s)).
      { intros a b Hp Hm.
        destruct (settle_frame s L (fill_slot dt r cy) (Resolved a b)) as (F1 & F2 & F3 & F4 & F5).
        apply (consistent_intro _ L (set_outcome (Resolved a b) (fill_slot dt r cy)));
          rewrite ?F1, ?F2, ?F3, ?F4, ?F5, ?length_insert; auto.
        * apply list_lookup_insert_eq. lia.
        * intros o [= <-]. split; [reflexivity | discriminate].
        * intros a' b' [= <- <-]. auto.
        * intros c cy' Hc' Hl. rewrite list_lookup_insert_ne in Hl by lia. eauto. }
      assert (Hstore : consistent (set_cycles (<[L := fill_slot dt r cy]> (cycles s)) s)).
      { apply (consistent_intro _ L (fill_slot dt r cy)); simpl;
          rewrite ?length_insert; auto.
        all: try (apply list_lookup_insert_eq; lia).
        all: try (intros ? ? Ho'; simpl in Ho'; congruence).
        intros c cy' Hc' Hl. rewrite list_lookup_insert_ne in Hl by lia. eauto. }
      destruct (cy_playlist (fill_slot dt r cy)) as [a|] eqn:Hp;
        destruct (cy_media (fill_slot dt r cy)) as [b|] eqn:Hm; auto.
  - assert (HcL : c < L) by lia.
    rewrite (Hold c cyc HcL Hc), fetchOne_aborted.
    destruct (settle_frame s c cyc (Rejected AbortError)) as (F1 & F2 & F3 & F4 & F5).
    apply (consistent_intro _ L cy);
      rewrite ?F1, ?F2, ?F3, ?F4, ?F5, ?length_insert; auto.
    + rewrite list_lookup_insert_ne by lia. exact HL.
    + intros c' cy' Hc' Hl.
      destruct (decide (c' = c)) as [->|Hne'].
      * rewrite list_lookup_insert_eq in Hl by lia. injection Hl as <-.
        simpl. apply (Hold c cyc HcL Hc).
      * rewrite list_lookup_insert_ne in Hl by auto. eauto.
Qed.

Lemma useDebounce_expire_consistent (s : State) :
  consistent s -> consistent (useDebounce_expire s).
Proof.
  intros H. unfold useDebounce_expire.
  destruct (String.eqb (debouncedQ (set_timer None s)) (q (set_timer None s))).
  - apply (consistent_ext s); auto.
  - apply fetchData_consistent.
    apply (superseding_ext s); auto using consistent_superseding.
Qed.

Lemma step_consistent (s : State) (e : Event) : consistent s -> consistent (step s e).
Proof.
  intros H. destruct e; simpl.
  - destruct (String.eqb text (q s)); [exact H|]. apply (consistent_ext s); auto.
  - apply (consistent_ext s); auto.
  - destruct (EngineId_eqb e (engine s)); [exact H|].
    apply fetchData_consistent. apply (superseding_ext s); auto using consistent_superseding.
  - destruct (String.eqb l (language s)); [exact H|].
    apply fetchData_consistent. apply (superseding_ext s); auto using consistent_superseding.
  - apply fetchData_consistent. apply (superseding_ext s); auto using consistent_superseding.
  - apply (consistent_ext s); auto.
  - apply (consistent_ext s); auto.
  - unfold advance. destruct (timer s) as [due|].
    + destruct (due <=? now s + d)%nat.
      * eapply consistent_ext; [apply useDebounce_expire_consistent| | | | |]; try reflexivity.
        apply (consistent_ext s); auto.
      * apply (consistent_ext s); auto.
    + apply (consistent_ext s); auto.
  - apply deliver_consistent. exact H.
Qed.

Lemma run_consistent (tr : list Event) (s : State) : consistent s -> consistent (run s tr).
Proof.
  revert s. induction tr as [|e tr IH]; intros s H; [exact H|].
  apply IH. apply step_consistent. exact H.
Qed.

(** In a consistent state a response to any cycle but the current one
    writes neither lists, counts nor console. *)
Lemma superseded_delivery_ignored (s : State) c dt net :
  consistent s -> abortRef s <> Some c ->
  held (deliver c dt net s) = held s /\ console (deliver c dt net s) = console s.
Proof.
  intros (L & cy & Ha & Hlen & HL & _ & _ & _ & _ & _ & _ & Hold) Hne.
  unfold deliver.
  destruct (cycles s !! c) as [cyc|] eqn:Hc; [|auto].
  destruct (cy_outcome cyc) eqn:Ho; [auto|].
  destruct (slot dt cyc) eqn:Hs; [auto|].
  assert (Hlt : c < length (cycles s)) by (eapply lookup_lt_Some; eauto).
  assert (HcL : c < L) by (assert (c <> L) by congruence; lia).
  rewrite (Hold c cyc HcL Hc), fetchOne_aborted.
  destruct (settle_frame s c cyc (Rejected AbortError)) as (_ & _ & _ & _ & F5).
  destruct (settle_aborted s c cyc) as (_ & _ & _ & F6 & _). auto.
Qed.

Lemma all_settled_lookup (s : State) c cy :
  all_settled s = true -> cycles s !! c = Some cy -> exists o, cy_outcome cy = Some o.
Proof.
  unfold all_settled. intros Hall Hc.
  rewrite forallb_forall in Hall.
  assert (Hin : In cy (cycles s)).
  { apply list_elem_of_In. eapply list_elem_of_lookup_2. exact Hc. }
  specialize (Hall cy Hin). destruct (cy_outcome cy) as [o|]; [eauto | discriminate].
Qed.

(** C1: in every state the component can reach, a response to a cycle
    that a newer cycle has superseded changes neither the item lists, the
    counts nor the console, whenever it arrives; and once every cycle has
    settled, the lists and counts held are the ones written by the cycle
    started last, whose two requests carry the current debounced query,
    trimmed, and the current filters. *)
Theorem latest_cycle_wins (tr : list Event) :
  let s := run mounted tr in
  (forall c documentType net,
      abortRef s <> Some c ->
      held (step s (Deliver c documentType net)) = held s
      /\ console (step s (Deliver c documentType net)) = console s)
  /\ (all_settled s = true ->
      exists c cy o,
        abortRef s = Some c /\ length (cycles s) = S c /\ cycles s !! c = Some cy
        /\ cy_aborted cy = false
        /\ cy_qv cy = trim (debouncedQ s)
        /\ cy_url_playlist cy = fetchOne_url playlist (trim (debouncedQ s)) (filters s)
        /\ cy_url_media cy = fetchOne_url media (trim (debouncedQ s)) (filters s)
        /\ cy_outcome cy = Some o /\ o <> Rejected AbortError
        /\ (forall a b, o = Resolved a b -> cy_playlist cy = Some a /\ cy_media cy = Some b)
        /\ held s = committed o
        /\ (forall c' cy', c' < c -> cycles s !! c' = Some cy' -> cy_aborted cy' = true)).
Proof.
  intros s.
  assert (Hcons : consistent s) by (apply run_consistent, mounted_consistent).
  split.
  - intros c dt net Hne. simpl. apply superseded_delivery_ignored; assumption.
  - intros Hall.
    destruct Hcons as (L & cy & Ha & Hlen & HL & Hna & Hqv & Hup & Hum & Hout & Hslots & Hold).
    destruct (all_settled_lookup s L cy Hall HL) as [o Ho].
    destruct (Hout o Ho) as [Hheld Hne].
    exists L, cy, o. repeat (split; [assumption|]).
    split; [|split; assumption].
    intros a b ->. apply Hslots. exact Ho.
Qed.

Lemma latest_cycle_wins_witness :
  let tr := [Deliver 0 playlist (ok_response [sample_record "s1" playlist] 1);
             SetEngine es;
             Deliver 1 media (ok_response [sample_record "e9" media] 9);
             Deliver 0 media (ok_response [sample_record "e1" media] 5);
             Deliver 1 playlist (ok_response [sample_record "s2" playlist] 2)] in
  all_settled (run mounted tr) = true
  /\ exists c cy o,
       abortRef (run mounted tr) = Some c /\ cycles (run mounted tr) !! c = Some cy
       /\ cy_outcome cy = Some o /\ held (run mounted tr) = committed o.
Proof.
  intros tr. split; [reflexivity|].
  destruct (latest_cycle_wins tr) as [_ H].
  destruct (H eq_refl) as (c & cy & o & H1 & _ & H3 & _ & _ & _ & _ & H8 & _ & _ & H11 & _).
  exists c, cy, o. auto.
Defined.

(* ===================================================================== *)
(** ** Debounce and the dependencies of [fetchData]                         *)
(* ===================================================================== *)

(** C4, as stated, fails: two changes of the engine 100 time units apart
    start two cycles, each at once; and a query typed and deleted again
    within the window starts none. *)
Lemma filter_changes_are_not_debounced :
  ~ one_cycle_after_quiescence mounted [(SetEngine es, 100)] (SetEngine al)
  /\ ~ one_cycle_after_quiescence mounted [(SetQ "a", 100)] (SetQ "").
Proof.
  unfold one_cycle_after_quiescence. split; intros H.
  - assert (Hm : Forall (fun m => mutation (fst m) = true /\ snd m < quiescence)
                   [(SetEngine es, 100)]).
    { constructor; [|constructor]. split; [reflexivity|]. unfold quiescence. simpl. lia. }
    destruct (H Hm eq_refl) as [Hlen _].
    vm_compute in Hlen. discriminate Hlen.
  - assert (Hm : Forall (fun m => mutation (fst m) = true /\ snd m < quiescence)
                   [(SetQ "a", 100)]).
    { constructor; [|constructor]. split; [reflexivity|]. unfold quiescence. simpl. lia. }
    destruct (H Hm eq_refl) as [Hlen _].
    vm_compute in Hlen. discriminate Hlen.
Qed.

Lemma keystroke_pause (s : State) (t : string) (d : nat) :
  t <> q s -> d < quiescence ->
  run s [SetQ t; Advance d]
  = set_now (now s + d) (set_timer (Some (now s + quiescence)) (set_q t s)).
Proof.
  intros Hne Hd. unfold run. simpl.
  apply String.eqb_neq in Hne. rewrite Hne.
  unfold advance, useDebounce_change. simpl.
  assert (Hdue : (now s + quiescence <=? now s + d)%nat = false)
    by (apply Nat.leb_gt; lia).
  rewrite Hdue. reflexivity.
Qed.

Lemma keystroke_quiet (s : State) (t : string) (d : nat) :
  t <> q s -> quiescence <= d ->
  run s [SetQ t; Advance d]
  = set_now (now s + d)
      (useDebounce_expire
         (set_now (now s + quiescence) (set_timer (Some (now s + quiescence)) (set_q t s)))).
Proof.
  intros Hne Hd. unfold run. simpl.
  apply String.eqb_neq in Hne. rewrite Hne.
  unfold advance, useDebounce_change. simpl.
  assert (Hdue : (now s + quiescence <=? now s + d)%nat = true)
    by (apply Nat.leb_le; lia).
  rewrite Hdue.
  replace (Nat.max (now s) (now s + quiescence)) with (now s + quiescence) by lia.
  reflexivity.
Qed.

Lemma fetchData_starts (x : State) :
  length (cycles (fetchData x)) = S (length (cycles x))
  /\ abortRef (fetchData x) = Some (length (cycles x))
  /\ cycles (fetchData x) !! length (cycles x) = Some (new_cycle x)
  /\ timer (fetchData x) = timer x /\ now (fetchData x) = now x
  /\ q (fetchData x) = q x /\ debouncedQ (fetchData x) = debouncedQ x.
Proof.
  split; [|split; [|split; [apply fetchData_new_cycle|]]];
    rewrite fetchData_unfold; simpl; auto.
  rewrite length_app, length_aborted_cycles. simpl. lia.
Qed.

Lemma run_cons2 (s : State) (a b : Event) (rest : list Event) :
  run s (a :: b :: rest) = run (run s [a; b]) rest.
Proof. reflexivity. Qed.

(** A burst of changes of the query, then quiet: the debounced value is
    written once, at the end of the window that follows the last change,
    and [fetchData] runs then if the value written is new. *)
Lemma keystrokes_quiet (ks : list (string * nat)) :
  forall (s : State) (t : string) (d : nat),
    changes (q s) (map fst ks ++ [t]) ->
    Forall (fun k => snd k < quiescence) ks ->
    quiescence <= d ->
    let s' := run s (keystrokes ks ++ [SetQ t; Advance d]) in
    let fired := now s + list_sum (map snd ks) + quiescence in
    q s' = t /\ debouncedQ s' = t /\ timer s' = None
    /\ now s' = now s + list_sum (map snd ks) + d
    /\ (t = debouncedQ s -> cycles s' = cycles s /\ abortRef s' = abortRef s)
    /\ (t <> debouncedQ s ->
        length (cycles s') = S (length (cycles s))
        /\ abortRef s' = Some (length (cycles s))
        /\ exists cy, cycles s' !! length (cycles s) = Some cy
                      /\ cy_started_at cy = fired /\ cy_qv cy = trim t).
Proof.
  induction ks as [|[t1 d1] ks IH]; intros s t d Hch Hks Hd.
  - simpl in Hch. destruct Hch as [Hne _].
    unfold keystrokes. simpl burst. simpl app.
    rewrite (keystroke_quiet s t d Hne Hd).
    unfold useDebounce_expire. simpl.
    destruct (String.eqb (debouncedQ s) t) eqn:E.
    + apply String.eqb_eq in E. simpl.
      repeat (split; [first [reflexivity | assumption | lia]|]).
      split; [auto|]. intros Hc. congruence.
    + apply String.eqb_neq in E.
      match goal with |- context [fetchData ?x] =>
        destruct (fetchData_starts x) as (F1 & F2 & F3 & F4 & F5 & F6 & F7) end.
      simpl in *.
      split; [exact F6|]. split; [exact F7|]. split; [exact F4|].
      split; [lia|]. split; [intros Hc; congruence|].
      intros _. split; [exact F1|]. split; [exact F2|].
      eexists. split; [exact F3|]. split; simpl; [lia | reflexivity].
  - simpl in Hch. destruct Hch as [Hne Hch].
    inversion Hks as [|k ks' Hd1 Hks']; subst. simpl in Hd1.
    unfold keystrokes. simpl burst. simpl app.
    rewrite run_cons2, (keystroke_pause s t1 d1 Hne Hd1).
    match goal with |- context [run ?x _] => specialize (IH x t d) end.
    simpl in IH. specialize (IH Hch Hks' Hd).
    unfold keystrokes in IH.
    destruct IH as (I1 & I2 & I3 & I4 & I5 & I6).
    simpl.
    split; [exact I1|]. split; [exact I2|]. split; [exact I3|].
    split; [lia|]. split; [exact I5|].
    intros Hc. destruct (I6 Hc) as (J1 & J2 & cy & J3 & J4 & J5).
    split; [exact J1|]. split; [exact J2|].
    exists cy. split; [exact J3|]. split; [lia | exact J5].
Qed.

Lemma EngineId_eqb_neq (a b : EngineId) : a <> b -> EngineId_eqb a b = false.
Proof. destruct a, b; simpl; congruence. Qed.

(** C4 (amended): a burst of changes of the query with pauses shorter than
    the quiescence interval, followed by quiet, writes the debounced query
    once, 500 time units after the last change, and starts exactly one
    fetch cycle then if the text differs from the debounced query held
    before the burst; a change of the engine or of the network code, and
    every new tag list, starts a fetch cycle at once and leaves the timer
    alone; neither a tab change nor the typing itself starts a cycle, and
    a tab change does not touch the timer. *)
Theorem debounce_wiring :
  (forall (s : State) (ks : list (string * nat)) (t : string) (d : nat),
      changes (q s) (map fst ks ++ [t]) ->
      Forall (fun k => snd k < quiescence) ks ->
      quiescence <= d ->
      let s' := run s (keystrokes ks ++ [SetQ t; Advance d]) in
      debouncedQ s' = t /\ timer s' = None
      /\ (t = debouncedQ s -> cycles s' = cycles s)
      /\ (t <> debouncedQ s ->
          length (cycles s') = S (length (cycles s))
          /\ abortRef s' = Some (length (cycles s))
          /\ exists cy, cycles s' !! length (cycles s) = Some cy
                        /\ cy_started_at cy = now s + list_sum (map snd ks) + 500
                        /\ cy_qv cy = trim t))
  /\ (forall (s : State) (e : Event),
         match e with
         | SetEngine v => v <> engine s
         | SetLanguage l => l <> language s
         | SetTags _ => True
         | _ => False
         end ->
         let s' := step s e in
         length (cycles s') = S (length (cycles s))
         /\ abortRef s' = Some (length (cycles s))
         /\ (exists cy, cycles s' !! length (cycles s) = Some cy
                         /\ cy_started_at cy = now s
                         /\ cy_qv cy = trim (debouncedQ s)
                         /\ cy_url_playlist cy
                            = fetchOne_url playlist (trim (debouncedQ s)) (filters s'))
         /\ timer s' = timer s /\ now s' = now s)
  /\ (forall (s : State) (e : Event),
         match e with SetTab _ | SetQ _ => True | _ => False end ->
         cycles (step s e) = cycles s /\ abortRef (step s e) = abortRef s
         /\ debouncedQ (step s e) = debouncedQ s
         /\ (forall tb, e = SetTab tb -> timer (step s e) = timer s)).
Proof.
  split; [|split].
  - intros s ks t d Hch Hks Hd s'.
    destruct (keystrokes_quiet ks s t d Hch Hks Hd) as (_ & H2 & H3 & _ & H5 & H6).
    split; [exact H2|]. split; [exact H3|]. split; [intros E; apply H5; exact E|].
    exact H6.
  - intros s e He s'. subst s'.
    assert (Hgen : forall x, timer x = timer s -> now x = now s ->
                     cycles x = cycles s -> debouncedQ x = debouncedQ s ->
                     length (cycles (fetchData x)) = S (length (cycles s))
                     /\ abortRef (fetchData x) = Some (length (cycles s))
                     /\ (exists cy, cycles (fetchData x) !! length (cycles s) = Some cy
                                     /\ cy_started_at cy = now s
                                     /\ cy_qv cy = trim (debouncedQ s)
                                     /\ cy_url_playlist cy
                                        = fetchOne_url playlist (trim (debouncedQ s))
                                            (filters (fetchData x)))
                     /\ timer (fetchData x) = timer s /\ now (fetchData x) = now s).
    { intros x Ht Hn Hc Hq.
      destruct (fetchData_starts x) as (F1 & F2 & F3 & F4 & F5 & _ & _).
      rewrite Hc in F1, F2, F3.
      split; [exact F1|]. split; [exact F2|].
      split; [|split; congruence].
      exists (new_cycle x). split; [exact F3|].
      unfold new_cycle. simpl. rewrite Hn, Hq.
      split; [reflexivity|]. split; [reflexivity|].
      rewrite fetchData_unfold. reflexivity. }
    destruct e; simpl in *; try contradiction.
    + rewrite (EngineId_eqb_neq _ _ He). apply Hgen; reflexivity.
    + apply String.eqb_neq in He. rewrite He. apply Hgen; reflexivity.
    + apply Hgen; reflexivity.
  - intros s e He. destruct e; simpl in *; try contradiction.
    + destruct (String.eqb text (q s)); repeat split; intros tb [=].
    + repeat split.
Qed.

Lemma debounce_wiring_witness :
  let s' := run mounted (keystrokes [("f", 100); ("fa", 200)] ++ [SetQ "fai"; Advance 500]) in
  debouncedQ s' = "fai" /\ length (cycles s') = 2
  /\ exists cy, cycles s' !! 1 = Some cy /\ cy_started_at cy = 800.
Proof.
  destruct debounce_wiring as [H _].
  assert (Hch : changes (q mounted) (map fst [("f", 100); ("fa", 200)] ++ ["fai"])).
  { simpl. repeat split; discriminate. }
  assert (Hks : Forall (fun k : string * nat => snd k < quiescence) [("f", 100); ("fa", 200)]).
  { repeat constructor; unfold quiescence; simpl; lia. }
  destruct (H mounted [("f", 100); ("fa", 200)] "fai" 500 Hch Hks (le_n 500))
    as (H1 & _ & _ & H4).
  assert (Hne : "fai" <> debouncedQ mounted) by discriminate.
  destruct (H4 Hne) as (H5 & _ & cy & H6 & H7 & _).
  split; [exact H1|]. split; [exact H5|]. exists cy. split; [exact H6 | exact H7].
Defined.

(* ===================================================================== *)
(** ** Case analysis of a step                                              *)
(* ===================================================================== *)

Lemma deliver_cases (s : State) c dt net : deliver_case c dt net s (deliver c dt net s).
Proof.
  unfold deliver.
  destruct (cycles s !! c) as [cy|] eqn:Hc; [|apply dc_ignored; reflexivity].
  destruct (cy_outcome cy) eqn:Ho; [apply dc_ignored; reflexivity|].
  destruct (slot dt cy) eqn:Hs; [apply dc_ignored; reflexivity|].
  destruct (fetchOne (cy_aborted cy) net) as [err|r] eqn:Hf.
  - eapply dc_rejected; eauto.
  - destruct (cy_playlist (fill_slot dt r cy)) as [a|] eqn:Hp;
      destruct (cy_media (fill_slot dt r cy)) as [b|] eqn:Hm;
      solve [ eapply dc_resolved; eauto | eapply dc_stored; eauto ].
Qed.

(** [s'] is the state [fetchData] leaves when called in [x], a state with
    the cycles and results of [s]; the clock may have moved on since. *)
Lemma fetchData_case (s x s' : State) :
  cycles x = cycles s -> abortRef x = abortRef s -> held x = held s ->
  console x = console s ->
  cycles s' = cycles (fetchData x) -> abortRef s' = abortRef (fetchData x) ->
  loading s' = loading (fetchData x) -> held s' = held (fetchData x) ->
  console s' = console (fetchData x) ->
  step_case s s'.
Proof.
  intros Hc Ha Hh Hk E1 E2 E3 E4 E5.
  rewrite fetchData_unfold in E1, E2, E3, E4, E5. simpl in *.
  apply (sc_fetch s s' (new_cycle x)); auto; try congruence.
  - rewrite E1. unfold aborted_cycles. rewrite Hc, Ha. reflexivity.
  - rewrite E4, <- Hh. reflexivity.
Qed.

Ltac by_fetchData s :=
  lazymatch goal with
  | |- step_case _ ?s' =>
      lazymatch s' with
      | context [fetchData ?x] => apply (fetchData_case s x); reflexivity
      end
  end.

Lemma step_cases (s : State) (e : Event) : step_case s (step s e).
Proof.
  destruct e; simpl.
  - destruct (String.eqb text (q s)); apply sc_quiet; reflexivity.
  - apply sc_quiet; reflexivity.
  - destruct (EngineId_eqb e (engine s)); [apply sc_quiet; reflexivity|].
    by_fetchData s.
  - destruct (String.eqb l (language s)); [apply sc_quiet; reflexivity|].
    by_fetchData s.
  - by_fetchData s.
  - apply sc_quiet; reflexivity.
  - apply sc_quiet; reflexivity.
  - unfold advance. destruct (timer s) as [due|]; [|apply sc_quiet; reflexivity].
    destruct (due <=? now s + d)%nat; [|apply sc_quiet; reflexivity].
    unfold useDebounce_expire. simpl.
    destruct (String.eqb (debouncedQ s) (q s)); [apply sc_quiet; reflexivity|].
    by_fetchData s.
  - apply (sc_deliver _ _ c documentType net). apply deliver_cases.
Qed.

Lemma all_settled_unsettled (s : State) c cy :
  cycles s !! c = Some cy -> cy_outcome cy = None -> all_settled s = false.
Proof.
  intros Hc Ho. destruct (all_settled s) eqn:Hall; [|reflexivity].
  destruct (all_settled_lookup s c cy Hall Hc) as [o Ho']. congruence.
Qed.

Lemma settle_loading (s : State) c cy o : loading (settle c cy o s) = false.
Proof.
  unfold settle, fetchData_resume. destruct (cy_branch cy); reflexivity.
Qed.

(** While [loading] is on, some cycle has not settled. *)
Lemma step_loading (s : State) (e : Event) :
  (loading s = true -> all_settled s = false) ->
  loading (step s e) = true -> all_settled (step s e) = false.
Proof.
  intros IH.
  destruct (step_cases s e) as [H1 H2 H3 H4 H5 | nc H1 H2 H3 H4 H5 H6 H7 H8 H9 | c dt net H].
  - unfold all_settled in *. rewrite H1, H3. exact IH.
  - intros _. unfold all_settled. rewrite H1, forallb_app. simpl. rewrite H2.
    apply andb_false_r.
  - destruct H as [-> | cy err H1 H2 H3 -> | cy r a b H1 H2 H3 H4 H5 -> | cy r H1 H2 H3 ->].
    + exact IH.
    + rewrite settle_loading. discriminate.
    + rewrite settle_loading. discriminate.
    + intros _. apply (all_settled_unsettled _ c (fill_slot dt r cy)); [|exact H2].
      simpl. apply list_lookup_insert_eq. eapply lookup_lt_Some; eauto.
Qed.

(** X1: in every state the component reaches, once every cycle has
    settled the loading indicator is off: no path of [fetchData] leaves
    it on. *)
Theorem loading_off_when_settled (tr : list Event) :
  all_settled (run mounted tr) = true -> loading (run mounted tr) = false.
Proof.
  assert (H : forall tr s, (loading s = true -> all_settled s = false) ->
                           loading (run s tr) = true -> all_settled (run s tr) = false).
  { clear tr. induction tr as [|e tr IH]; intros s Hs; [exact Hs|].
    apply IH. apply step_loading. exact Hs. }
  intros Hall. destruct (loading (run mounted tr)) eqn:Hl; [|reflexivity].
  rewrite (H tr mounted) in Hall; [discriminate | reflexivity | exact Hl].
Qed.

Lemma loading_off_when_settled_witness :
  loading (run mounted [Deliver 0 playlist NetworkFailure; SetTab tab_episodes]) = false.
Proof.
  apply (loading_off_when_settled [Deliver 0 playlist NetworkFailure; SetTab tab_episodes]).
  reflexivity.
Defined.

(* ===================================================================== *)
(** ** Invariants of the reachable states                                   *)
(* ===================================================================== *)

Lemma run_invariant (P : State -> Prop) :
  (forall s e, P s -> P (step s e)) ->
  forall tr s, P s -> P (run s tr).
Proof.
  intros Hstep. induction tr as [|e tr IH]; intros s Hs; [exact Hs|].
  apply IH, Hstep, Hs.
Qed.

Lemma settle_console (s : State) c cy o :
  console (settle c cy o s) = console s
  \/ exists entry, logged_failure entry /\ console (settle c cy o s) = (console s ++ [entry])%list.
Proof.
  unfold settle, fetchData_resume, console_error, logged_failure.
  destruct (cy_branch cy), o as [a b | []]; simpl; auto;
    right; eexists; (split; [|reflexivity]); simpl; split; auto; discriminate.
Qed.

Lemma step_console (s : State) (e : Event) :
  Forall logged_failure (console s) -> Forall logged_failure (console (step s e)).
Proof.
  intros IH.
  destruct (step_cases s e) as [H1 H2 H3 H4 H5 | nc H1 H2 H3 H4 H5 H6 H7 H8 H9 | c dt net H].
  - rewrite H5. exact IH.
  - rewrite H9. exact IH.
  - destruct H as [-> | cy err H1 H2 H3 -> | cy r a b H1 H2 H3 H4 H5 -> | cy r H1 H2 H3 ->];
      try exact IH.
    + destruct (settle_console s c cy (Rejected err)) as [-> | (entry & He & ->)]; [exact IH|].
      apply Forall_app. split; [exact IH | constructor; [exact He | constructor]].
    + destruct (settle_console s c (fill_slot dt r cy) (Resolved a b))
        as [-> | (entry & He & ->)]; [exact IH|].
      apply Forall_app. split; [exact IH | constructor; [exact He | constructor]].
Qed.

(** X2: whatever happens, a cancellation is never logged: every entry of
    the console is a failure other than an abort, under the label of one
    of the two branches of [fetchData]. *)
Theorem console_holds_failures_only (tr : list Event) (label : string) (err : JsError) :
  In (label, err) (console (run mounted tr)) ->
  err <> AbortError
  /\ (label = "Fetch all failed" \/ label = "Search fetch failed").
Proof.
  intros Hin.
  assert (H : Forall logged_failure (console (run mounted tr))).
  { apply (run_invariant (fun s => Forall logged_failure (console s))).
    - apply step_console.
    - constructor. }
  rewrite Forall_forall in H. apply (H (label, err)).
  apply list_elem_of_In. exact Hin.
Qed.

Lemma console_holds_failures_only_witness :
  let tr := [SetEngine es; Deliver 0 media NetworkFailure;
             Deliver 1 media (Arrived {| status := 200; body := Malformed |})] in
  In ("Fetch all failed", SyntaxError) (console (run mounted tr))
  /\ SyntaxError <> AbortError.
Proof.
  intros tr.
  assert (Hin : In ("Fetch all failed", SyntaxError) (console (run mounted tr)))
    by (left; reflexivity).
  split; [exact Hin|].
  apply (console_holds_failures_only tr "Fetch all failed" SyntaxError Hin).
Defined.

Lemma fetchOne_from_api (aborted : bool) (net : NetResult) (r : FetchOneResult) :
  fetchOne aborted net = inr r -> Forall from_api (mapped r).
Proof.
  unfold fetchOne. destruct (fetch aborted net) as [e|res]; [discriminate|].
  destruct (json res) as [e|data]; [discriminate|].
  intros [= <-]. simpl. apply Forall_forall. intros it Hit.
  apply list_elem_of_fmap in Hit. destruct Hit as (ai & -> & _). exists ai. reflexivity.
Qed.

Lemma slots_fill_slot dt r cy :
  Forall from_api (mapped r) -> slots_from_api cy -> slots_from_api (fill_slot dt r cy).
Proof.
  intros Hr [Hp Hm]. split; intros r'; destruct dt; simpl; intros H;
    first [ injection H as <-; exact Hr | apply Hp; exact H | apply Hm; exact H ].
Qed.

Lemma settle_items (s : State) c cy o :
  items_from_api s -> slots_from_api cy ->
  (forall a b, o = Resolved a b -> Forall from_api (mapped a) /\ Forall from_api (mapped b)) ->
  items_from_api (settle c cy o s).
Proof.
  intros (Hs & He & Hc) Hcy Ho.
  assert (Hcs : Forall slots_from_api (<[c := set_outcome o cy]> (cycles s))).
  { apply Forall_insert; [exact Hc | exact Hcy]. }
  unfold settle, fetchData_resume, console_error, items_from_api.
  destruct (cy_branch cy), o as [a b | []]; simpl; auto;
    destruct (Ho a b eq_refl); auto.
Qed.

Lemma step_items (s : State) (e : Event) : items_from_api s -> items_from_api (step s e).
Proof.
  intros IH. pose proof IH as (Hs & He & Hc).
  destruct (step_cases s e) as [H1 H2 H3 H4 H5 | nc H1 H2 H3 H4 H5 H6 H7 H8 H9 | c dt net H].
  - unfold held in H4. injection H4 as E1 E2 E3.
    unfold items_from_api. rewrite H1, E1, E2. auto.
  - unfold held in H8. injection H8 as E1 E2 E3.
    unfold items_from_api. rewrite H1, E1, E2. split; [exact Hs|]. split; [exact He|].
    apply Forall_app. split.
    + unfold aborted_cycles. destruct (abortRef s); [|exact Hc].
      apply Forall_alter; [exact Hc|]. intros cy _ Hcy. exact Hcy.
    + constructor; [|constructor]. split; intros r Hr; congruence.
  - assert (Hcy : forall cy, cycles s !! c = Some cy -> slots_from_api cy)
      by (intros cy Hl; eapply Forall_lookup_1; eauto).
    destruct H as [-> | cy err H1 H2 H3 -> | cy r a b H1 H2 H3 H4 H5 -> | cy r H1 H2 H3 ->].
    + exact IH.
    + apply settle_items; auto. intros a b [=].
    + pose proof (slots_fill_slot dt r cy (fetchOne_from_api _ _ _ H3) (Hcy cy H1)) as Hf.
      apply settle_items; auto.
      intros a' b' [= <- <-]. destruct Hf as [Hp Hm]. split; auto.
    + unfold items_from_api. simpl. split; [exact Hs|]. split; [exact He|].
      apply Forall_insert; [exact Hc|].
      apply slots_fill_slot; [eapply fetchOne_from_api; eauto | auto].
Qed.

Lemma mounted_items : items_from_api mounted.
Proof.
  unfold items_from_api, mounted. rewrite fetchData_unfold. simpl.
  split; [constructor|]. split; [constructor|].
  constructor; [|constructor]. split; intros r Hr; discriminate Hr.
Qed.

(** X3: every card the view can show was built by [mapApiToItem], so it
    carries its raw record: clicking it puts exactly that API record in
    the dialog, and the fallback to the item itself is never taken. *)
Theorem visible_card_shows_raw_record (tr : list Event) (it : Item) :
  In it (visible (run mounted tr)) ->
  exists ai,
    it = mapApiToItem ai /\ it_raw it = Some ai
    /\ dialogData (step (run mounted tr) (CardClick it)) = Some (RawRecord ai)
    /\ dialogOpen (step (run mounted tr) (CardClick it)) = true.
Proof.
  intros Hin.
  assert (H : items_from_api (run mounted tr)).
  { apply (run_invariant items_from_api); [apply step_items | apply mounted_items]. }
  destruct H as (Hs & He & _).
  assert (Hit : from_api it).
  { unfold visible in Hin. apply list_elem_of_In in Hin.
    destruct (tab (run mounted tr)).
    - rewrite Forall_forall in Hs. apply Hs. exact Hin.
    - rewrite Forall_forall in He. apply He. exact Hin. }
  destruct Hit as [ai ->]. exists ai. repeat split.
Qed.

Lemma visible_card_shows_raw_record_witness :
  exists ai,
    mapApiToItem (sample_record "s1" playlist) = mapApiToItem ai
    /\ it_raw (mapApiToItem (sample_record "s1" playlist)) = Some ai.
Proof.
  destruct (visible_card_shows_raw_record
              [Deliver 0 media (ok_response [] 0);
               Deliver 0 playlist (ok_response [sample_record "s1" playlist] 1)]
              (mapApiToItem (sample_record "s1" playlist)))
    as (ai & H1 & H2 & _).
  - left. reflexivity.
  - exists ai. split; [exact H1 | exact H2].
Defined.

Lemma deliver_dialogOpen c dt net s : dialogOpen (deliver c dt net s) = dialogOpen s.
Proof. frame_deliver. Qed.

Lemma step_dialogOpen (s : State) (e : Event) :
  dialogOpen (step s e)
  = match e with
    | CardClick _ => true
    | CloseDialog => false
    | _ => dialogOpen s
    end.
Proof.
  destruct e; simpl; try reflexivity.
  - case_match; reflexivity.
  - case_match; [reflexivity|]. rewrite fetchData_unfold. reflexivity.
  - case_match; [reflexivity|]. rewrite fetchData_unfold. reflexivity.
  - rewrite fetchData_unfold. reflexivity.
  - unfold advance, useDebounce_expire. repeat case_match; simpl; try reflexivity.
    rewrite fetchData_unfold. reflexivity.
  - apply deliver_dialogOpen.
Qed.

(** X4: an open dialog always has a record to show: in no reachable
    state is the dialog open with [dialogData] empty, so the "No data"
    text is never on screen. *)
Theorem open_dialog_has_data (tr : list Event) :
  dialogOpen (run mounted tr) = true -> dialog_falls_back (run mounted tr) = false.
Proof.
  apply (run_invariant (fun s => dialogOpen s = true -> dialog_falls_back s = false)).
  - intros s e IH. unfold dialog_falls_back in *.
    rewrite step_dialogOpen, step_dialogData.
    destruct e; auto; discriminate.
  - discriminate.
Qed.

Lemma open_dialog_has_data_witness :
  dialog_falls_back
    (run mounted [CardClick (mapApiToItem (sample_record "s1" playlist)); SetTab tab_episodes])
  = false.
Proof.
  apply (open_dialog_has_data
           [CardClick (mapApiToItem (sample_record "s1" playlist)); SetTab tab_episodes]).
  reflexivity.
Defined.

(** X5: at most one cycle is live: in every reachable state a cycle whose
    signal has not been aborted is the one started last, the one
    [abortRef] points to. *)
Theorem only_latest_cycle_is_live (tr : list Event) (c : nat) (cy : Cycle) :
  cycles (run mounted tr) !! c = Some cy -> cy_aborted cy = false ->
  abortRef (run mounted tr) = Some c /\ length (cycles (run mounted tr)) = S c.
Proof.
  intros Hc Ha.
  destruct (run_consistent tr mounted mounted_consistent)
    as (L & cyL & H1 & H2 & H3 & _ & _ & _ & _ & _ & _ & Hold).
  assert (Hlt : c < length (cycles (run mounted tr))) by (eapply lookup_lt_Some; eauto).
  destruct (decide (c = L)) as [->|Hne]; [auto|].
  assert (HcL : c < L) by lia.
  rewrite (Hold c cy HcL Hc) in Ha. discriminate Ha.
Qed.

Lemma only_latest_cycle_is_live_witness :
  abortRef (run mounted [SetEngine es; SetTags ["a"]]) = Some 2
  /\ length (cycles (run mounted [SetEngine es; SetTags ["a"]])) = 3.
Proof.
  apply (only_latest_cycle_is_live [SetEngine es; SetTags ["a"]] 2
           (new_cycle (set_tags ["a"] (set_engine es init))));
    reflexivity.
Defined.

Lemma deliver_no_request (s : State) c dt net :
  length (cycles (deliver c dt net s)) = length (cycles s)
  /\ abortRef (deliver c dt net s) = abortRef s.
Proof.
  destruct (deliver_cases s c dt net)
    as [-> | cy err H1 H2 H3 -> | cy r a b H1 H2 H3 H4 H5 -> | cy r H1 H2 H3 ->];
    [auto| | |simpl; rewrite length_insert; auto].
  - destruct (settle_frame s c cy (Rejected err)) as (F1 & F2 & _).
    rewrite F1, F2, length_insert. auto.
  - destruct (settle_frame s c (fill_slot dt r cy) (Resolved a b)) as (F1 & F2 & _).
    rewrite F1, F2, length_insert. auto.
Qed.

(** X6: requests are issued on a dependency change and on nothing else:
    an event starts exactly one cycle when it changes the engine, the
    network code, the tag list or, at the end of the debounce window, the
    debounced query, and none otherwise. A response, failed or not,
    never starts a cycle: nothing is retried. A new cycle becomes the
    current one and turns the loading indicator on. *)
Theorem cycles_start_on_dependency_change (s : State) (e : Event) :
  length (cycles (step s e))
  = length (cycles s) + (if starts_cycle s e then 1 else 0)
  /\ (starts_cycle s e = false -> abortRef (step s e) = abortRef s)
  /\ (starts_cycle s e = true ->
      abortRef (step s e) = Some (length (cycles s)) /\ loading (step s e) = true)
  /\ (forall c documentType net, starts_cycle s (Deliver c documentType net) = false).
Proof.
  assert (Hf : forall x s', cycles x = cycles s ->
                 cycles s' = cycles (fetchData x) -> abortRef s' = abortRef (fetchData x) ->
                 loading s' = loading (fetchData x) ->
                 length (cycles s') = length (cycles s) + 1
                 /\ (true = false -> abortRef s' = abortRef s)
                 /\ (true = true -> abortRef s' = Some (length (cycles s)) /\ loading s' = true)).
  { intros x s' Hc E1 E2 E3.
    destruct (fetchData_starts x) as (F1 & F2 & _).
    rewrite E1, E2, E3, F1, F2, Hc. rewrite fetchData_unfold. simpl.
    split; [lia|]. split; [discriminate | auto]. }
  assert (Hq : forall s', cycles s' = cycles s -> abortRef s' = abortRef s ->
                 length (cycles s') = length (cycles s) + 0
                 /\ (false = false -> abortRef s' = abortRef s)
                 /\ (false = true -> abortRef s' = Some (length (cycles s)) /\ loading s' = true)).
  { intros s' E1 E2. rewrite E1. split; [lia|]. split; [auto | discriminate]. }
  match goal with
  | |- ?A /\ ?B /\ ?C /\ ?D =>
      assert (H : A /\ B /\ C);
      [| destruct H as (HA & HB & HC); split; [|split; [|split]];
         [exact HA | exact HB | exact HC | reflexivity] ]
  end.
  destruct e; simpl.
  - destruct (String.eqb text (q s)); apply Hq; reflexivity.
  - apply Hq; reflexivity.
  - destruct (EngineId_eqb e (engine s)); simpl; [apply Hq; reflexivity|].
    apply (Hf (set_engine e s)); reflexivity.
  - destruct (String.eqb l (language s)); simpl; [apply Hq; reflexivity|].
    apply (Hf (set_language l s)); reflexivity.
  - apply (Hf (set_tags ts s)); reflexivity.
  - apply Hq; reflexivity.
  - apply Hq; reflexivity.
  - unfold advance. destruct (timer s) as [due|]; [|apply Hq; reflexivity].
    destruct (due <=? now s + d)%nat; simpl; [|apply Hq; reflexivity].
    unfold useDebounce_expire. simpl.
    destruct (String.eqb (debouncedQ s) (q s)); simpl; [apply Hq; reflexivity|].
    match goal with |- context [fetchData ?x] => apply (Hf x) end; reflexivity.
  - destruct (deliver_no_request s c documentType net) as [E1 E2].
    rewrite E1, E2. split; [lia|]. split; [auto | discriminate].
Qed.

Lemma cycles_start_on_dependency_change_witness :
  abortRef (step mounted (SetLanguage "fr")) = Some 1
  /\ loading (step mounted (SetLanguage "fr")) = true.
Proof.
  destruct (cycles_start_on_dependency_change mounted (SetLanguage "fr")) as (_ & _ & H & _).
  apply H. reflexivity.
Defined.

(* ===================================================================== *)
(** ** The two responses of one cycle                                       *)
(* ===================================================================== *)

Lemma fill_slot_commute (rp rm : FetchOneResult) (cy : Cycle) :
  fill_slot media rm (fill_slot playlist rp cy)
  = fill_slot playlist rp (fill_slot media rm cy).
Proof. reflexivity. Qed.

(** X7: the two requests of a cycle succeed or fail together. When one
    comes back with results and the other fails, in either order, both
    lists are cleared and both counts are 0: the results of the request
    that succeeded are dropped, the failure is logged once, and the
    loading indicator goes off. *)
Theorem one_failure_fails_the_cycle (s : State) (c : nat) (cy : Cycle)
    (documentType : DocumentType) (good bad : NetResult) (r : FetchOneResult)
    (err : JsError) (s' : State) :
  cycles s !! c = Some cy -> cy_outcome cy = None -> cy_aborted cy = false ->
  cy_playlist cy = None -> cy_media cy = None ->
  fetchOne false good = inr r -> fetchOne false bad = inl err ->
  s' = run s [Deliver c documentType good; Deliver c (other documentType) bad]
  \/ s' = run s [Deliver c (other documentType) bad; Deliver c documentType good] ->
  seriesItems s' = [] /\ episodeItems s' = [] /\ counts s' = zero_counts
  /\ loading s' = false
  /\ (exists label, console s' = (console s ++ [(label, err)])%list)
  /\ (cy_outcome <$> cycles s' !! c) = Some (Some (Rejected err)).
Proof.
  intros Hc Ho Ha Hp Hm Hgood Hbad Hs'.
  assert (Hlt : c < length (cycles s)) by (eapply lookup_lt_Some; eauto).
  assert (Hne : err <> AbortError) by (eapply fetchOne_not_aborted; eauto).
  assert (Hslot : forall d, slot d cy = None) by (intros []; assumption).
  assert (Hsettled : forall st cy0,
             cycles st !! c = Some cy0 -> c < length (cycles st) ->
             console st = console s ->
             let st' := settle c cy0 (Rejected err) st in
             seriesItems st' = [] /\ episodeItems st' = [] /\ counts st' = zero_counts
             /\ loading st' = false
             /\ (exists label, console st' = (console s ++ [(label, err)])%list)
             /\ (cy_outcome <$> cycles st' !! c) = Some (Some (Rejected err))).
  { intros st cy0 Hl Hlen Hk st'.
    destruct (settle_rejected st c cy0 err Hne) as (H1 & H2 & H3 & (label & H4) & H5).
    destruct (settle_frame st c cy0 (Rejected err)) as (_ & F2 & _).
    subst st'. rewrite H1, H2, H3, H5, H4, F2, Hk.
    repeat (split; [reflexivity|]). split; [eauto|].
    rewrite list_lookup_insert_eq by exact Hlen. reflexivity. }
  destruct Hs' as [-> | ->]; unfold run; simpl.
  - rewrite (deliver_first s c cy documentType good r); auto; [|rewrite Ha; exact Hgood].
    erewrite (deliver_reject _ c (fill_slot documentType r cy) (other documentType) bad err).
    + apply Hsettled; simpl; rewrite ?length_insert; auto.
      apply list_lookup_insert_eq. exact Hlt.
    + simpl. apply list_lookup_insert_eq. exact Hlt.
    + exact Ho.
    + destruct documentType; simpl; assumption.
    + simpl. rewrite Ha. exact Hbad.
  - rewrite (deliver_reject s c cy (other documentType) bad err); auto;
      [|rewrite Ha; exact Hbad].
    assert (Hig : deliver c documentType good (settle c cy (Rejected err) s)
                  = settle c cy (Rejected err) s).
    { destruct (settle_frame s c cy (Rejected err)) as (_ & F2 & _).
      unfold deliver. rewrite F2, list_lookup_insert_eq by exact Hlt. reflexivity. }
    rewrite Hig. apply Hsettled; auto.
Qed.

Lemma one_failure_fails_the_cycle_witness :
  let s' := run mounted [Deliver 0 playlist (ok_response [sample_record "s1" playlist] 1);
                         Deliver 0 media NetworkFailure] in
  seriesItems s' = [] /\ counts s' = zero_counts.
Proof.
  intros s'.
  destruct (one_failure_fails_the_cycle mounted 0 (new_cycle init) playlist
              (ok_response [sample_record "s1" playlist] 1) NetworkFailure
              {| mapped := [mapApiToItem (sample_record "s1" playlist)]; total := 1 |}
              TypeError s' mounted_cycle eq_refl eq_refl eq_refl eq_refl eq_refl eq_refl
              (or_introl eq_refl)) as (H1 & _ & H3 & _).
  split; [exact H1 | exact H3].
Defined.

(** X8: when both requests of a cycle succeed, the order in which the two
    responses arrive makes no difference to the state at all. *)
Theorem response_order_is_irrelevant (s : State) (c : nat) (cy : Cycle)
    (np nm : NetResult) (rp rm : FetchOneResult) :
  cycles s !! c = Some cy -> cy_outcome cy = None ->
  cy_playlist cy = None -> cy_media cy = None ->
  fetchOne (cy_aborted cy) np = inr rp -> fetchOne (cy_aborted cy) nm = inr rm ->
  run s [Deliver c playlist np; Deliver c media nm]
  = run s [Deliver c media nm; Deliver c playlist np].
Proof.
  intros Hc Ho Hp Hm Hrp Hrm.
  assert (Hlt : c < length (cycles s)) by (eapply lookup_lt_Some; eauto).
  unfold run. simpl.
  rewrite (deliver_first s c cy playlist np rp); auto.
  rewrite (deliver_first s c cy media nm rm); auto.
  erewrite (deliver_last _ c (fill_slot playlist rp cy) media nm rm rp); simpl; eauto;
    [|apply list_lookup_insert_eq; exact Hlt].
  erewrite (deliver_last _ c (fill_slot media rm cy) playlist np rp rm); simpl; eauto;
    [|apply list_lookup_insert_eq; exact Hlt].
  unfold settle. simpl. rewrite !list_insert_insert_eq. reflexivity.
Qed.

Lemma response_order_is_irrelevant_witness :
  run mounted [Deliver 0 playlist (ok_response [sample_record "s1" playlist] 1);
               Deliver 0 media (ok_response [] 0)]
  = run mounted [Deliver 0 media (ok_response [] 0);
                 Deliver 0 playlist (ok_response [sample_record "s1" playlist] 1)].
Proof.
  apply (response_order_is_irrelevant mounted 0 (new_cycle init)
           (ok_response [sample_record "s1" playlist] 1) (ok_response [] 0)
           {| mapped := [mapApiToItem (sample_record "s1" playlist)]; total := 1 |}
           {| mapped := []; total := 0 |});
    reflexivity.
Defined.

(* ===================================================================== *)
(** ** The query box                                                        *)
(* ===================================================================== *)

Lemma quiet_change_calls_fetchData (s : State) (t : string) (d : nat) :
  t <> q s -> t <> debouncedQ s -> quiescence <= d ->
  run s [SetQ t; Advance d]
  = set_now (now s + d)
      (fetchData
         (set_debouncedQ t
            (set_timer None (set_now (now s + quiescence) (set_q t s))))).
Proof.
  intros Hq Hd Hle. rewrite (keystroke_quiet s t d Hq Hle).
  unfold useDebounce_expire. simpl.
  assert (E : String.eqb (debouncedQ s) t = false) by (apply String.eqb_neq; congruence).
  rewrite E. reflexivity.
Qed.

Lemma quiet_change_same_value (s : State) (t : string) (d : nat) :
  t <> q s -> t = debouncedQ s -> quiescence <= d ->
  run s [SetQ t; Advance d]
  = set_now (now s + d)
      (set_timer None (set_now (now s + quiescence) (set_q t s))).
Proof.
  intros Hq Hd Hle. rewrite (keystroke_quiet s t d Hq Hle).
  unfold useDebounce_expire. simpl.
  assert (E : String.eqb (debouncedQ s) t = true) by (apply String.eqb_eq; congruence).
  rewrite E. reflexivity.
Qed.

(** X9: the clear button of the query box ([setQ] with the empty string)
    never clears what is on screen. Once the debounce window has passed
    the debounced query is empty; if it was not empty before, a
    browse-all cycle starts then: the two requests go out with an empty
    term and the current filters, 500 time units after the click; if it
    was still empty (the text was typed and cleared within the window) no
    request is made and cycles, [abortRef] and the loading flag stay as
    they are. *)
Theorem clearing_the_query_browses_all (s : State) (d : nat) :
  q s <> "" -> quiescence <= d ->
  let s' := run s [SetQ ""; Advance d] in
  q s' = "" /\ debouncedQ s' = "" /\ held s' = held s
  /\ (debouncedQ s <> "" ->
      abortRef s' = Some (length (cycles s))
      /\ length (cycles s') = S (length (cycles s))
      /\ exists cy,
           cycles s' !! length (cycles s) = Some cy
           /\ cy_branch cy = BrowseAll /\ cy_qv cy = ""
           /\ cy_url_playlist cy = fetchOne_url playlist "" (filters s)
           /\ cy_url_media cy = fetchOne_url media "" (filters s)
           /\ params_get "q" (fetchOne_params playlist "" (filters s)) = Some ""
           /\ cy_started_at cy = now s + 500)
  /\ (debouncedQ s = "" ->
      cycles s' = cycles s /\ abortRef s' = abortRef s /\ loading s' = loading s).
Proof.
  intros Hq Hle s'. subst s'.
  assert (Hq' : "" <> q s) by congruence.
  destruct (String.eqb (debouncedQ s) "") eqn:E.
  - apply String.eqb_eq in E.
    rewrite (quiet_change_same_value s "" d Hq' (eq_sym E) Hle). simpl.
    split; [reflexivity|]. split; [exact E|]. split; [reflexivity|].
    split; [intros Hd; congruence|]. intros _. repeat split.
  - apply String.eqb_neq in E.
    assert (Hd' : "" <> debouncedQ s) by congruence.
    rewrite (quiet_change_calls_fetchData s "" d Hq' Hd' Hle).
    match goal with |- context [fetchData ?x] =>
      pose proof (fetchData_new_cycle x) as Hnew;
      pose proof (fetchData_starts x) as (Hlen & _); set (X := x) in * end.
    rewrite fetchData_unfold. rewrite fetchData_unfold in Hnew, Hlen. simpl in *.
    repeat (split; [reflexivity|]).
    split; [|intros Hd; congruence].
    intros _. split; [reflexivity|]. split; [exact Hlen|].
    exists (new_cycle X). split; [exact Hnew|].
    unfold new_cycle, X. simpl.
    repeat (split; [reflexivity|]).
    split; [apply fetchOne_params_q | reflexivity].
Qed.

Lemma clearing_the_query_browses_all_witness :
  let s := run mounted [SetQ "faith"; Advance 500] in
  let t := run mounted [SetQ "a"; Advance 100] in
  debouncedQ (run s [SetQ ""; Advance 700]) = ""
  /\ abortRef (run s [SetQ ""; Advance 700]) = Some 2
  /\ cycles (run t [SetQ ""; Advance 500]) = cycles t.
Proof.
  intros s t.
  assert (H1 : q s <> "") by discriminate.
  assert (H2 : debouncedQ s <> "") by discriminate.
  assert (H3 : quiescence <= 700) by (unfold quiescence; lia).
  destruct (clearing_the_query_browses_all s 700 H1 H3) as (_ & Hd & _ & Hs & _).
  destruct (Hs H2) as (Ha & _).
  assert (H4 : q t <> "") by discriminate.
  destruct (clearing_the_query_browses_all t 500 H4 (le_n 500)) as (_ & _ & _ & _ & Ht).
  destruct (Ht eq_refl) as (Hc & _).
  split; [exact Hd|]. split; [exact Ha | exact Hc].
Defined.

(** X10: the effect compares the debounced text, the requests carry the
    trimmed text. A change of the query that leaves its trimmed value as
    it was (blanks added or removed at the ends) therefore aborts the
    current cycle and starts a new one whose two URLs are the very ones
    of the cycle it aborts. *)
Theorem padding_refetches_same_urls (tr : list Event) (t : string) (d : nat) :
  let s := run mounted tr in
  t <> q s -> t <> debouncedQ s -> trim t = trim (debouncedQ s) -> quiescence <= d ->
  let s' := run s [SetQ t; Advance d] in
  exists L old new,
    abortRef s = Some L /\ abortRef s' = Some (S L)
    /\ cycles s' !! L = Some old /\ cy_aborted old = true
    /\ cycles s' !! S L = Some new /\ cy_aborted new = false
    /\ cy_url_playlist new = cy_url_playlist old
    /\ cy_url_media new = cy_url_media old.
Proof.
  intros s Hq Hd Ht Hle s'. subst s'.
  destruct (run_consistent tr mounted mounted_consistent)
    as (L & cyL & H1 & H2 & H3 & _ & _ & Hup & Hum & _ & _ & _).
  fold s in H1, H2, H3, Hup, Hum.
  rewrite (quiet_change_calls_fetchData s t d Hq Hd Hle).
  match goal with |- context [fetchData ?x] => set (X := x) end.
  rewrite fetchData_unfold. simpl.
  assert (Hab : aborted_cycles X = alter set_aborted L (cycles s)).
  { unfold aborted_cycles, X. simpl. rewrite H1. reflexivity. }
  assert (Hlen : length (aborted_cycles X) = S L).
  { rewrite Hab, length_alter. exact H2. }
  exists L, (set_aborted cyL), (new_cycle X).
  split; [exact H1|]. split; [unfold X; simpl; rewrite H2; reflexivity|].
  split.
  { rewrite lookup_app_l by (rewrite Hlen; lia).
    rewrite Hab, list_lookup_alter_eq, H3. reflexivity. }
  split; [reflexivity|].
  split.
  { rewrite lookup_app_r by (rewrite Hlen; lia).
    rewrite Hlen, Nat.sub_diag. reflexivity. }
  split; [reflexivity|].
  unfold new_cycle, X. simpl. rewrite Hup, Hum, Ht. split; reflexivity.
Qed.

Lemma padding_refetches_same_urls_witness :
  let s := run mounted [SetQ "faith"; Advance 500] in
  exists old new,
    cycles (run s [SetQ "faith "; Advance 500]) !! 1 = Some old
    /\ cycles (run s [SetQ "faith "; Advance 500]) !! 2 = Some new
    /\ cy_url_playlist new = cy_url_playlist old.
Proof.
  intros s.
  assert (H1 : "faith " <> q s) by discriminate.
  assert (H2 : "faith " <> debouncedQ s) by discriminate.
  assert (H3 : trim "faith " = trim (debouncedQ s)) by reflexivity.
  destruct (padding_refetches_same_urls [SetQ "faith"; Advance 500] "faith " 500
              H1 H2 H3 (le_n 500))
    as (L & old & new & Ha & _ & Hold & _ & Hnew & _ & Hu & _).
  assert (HL : L = 1) by (vm_compute in Ha; congruence).
  subst L. exists old, new. split; [exact Hold|]. split; [exact Hnew | exact Hu].
Defined.

(* ===================================================================== *)
(** ** The query string                                                     *)
(* ===================================================================== *)

Lemma count_char_app (c : ascii) (a b : string) :
  count_char c (a ++ b) = count_char c a + count_char c b.
Proof.
  induction a as [|x a IH]; simpl; [reflexivity|]. rewrite IH. lia.
Qed.

Lemma urlencode_one (x c : ascii) :
  never_emitted c = true -> count_char c (urlencode (String x "")) = 0.
Proof.
  intros Hc. unfold never_emitted in Hc.
  apply negb_true_iff in Hc. apply orb_false_iff in Hc. destruct Hc as [Hc Hpct].
  apply orb_false_iff in Hc. destruct Hc as [Hsafe Hplus].
  assert (Hhex : forall n, n < 16 -> Ascii.eqb (hex_digit n) c = false).
  { intros n Hn.
    destruct (Ascii.eqb (hex_digit n) c) eqn:E; [|reflexivity].
    apply Ascii.eqb_eq in E. subst c.
    do 16 (destruct n as [|n]; [vm_compute in Hsafe; discriminate Hsafe|]). lia. }
  assert (Hdiv : nat_of_ascii x / 16 < 16).
  { pose proof (nat_ascii_bounded x). apply Nat.Div0.div_lt_upper_bound. lia. }
  assert (Hmod : nat_of_ascii x mod 16 < 16) by (apply Nat.mod_upper_bound; lia).
  assert (Hx : Ascii.eqb x c = true -> form_safe x = false).
  { intros E. apply Ascii.eqb_eq in E. congruence. }
  rewrite Ascii.eqb_sym in Hplus. rewrite Ascii.eqb_sym in Hpct.
  cbn [urlencode].
  destruct (form_safe x); [|destruct (nat_of_ascii x =? 32)%nat];
    cbn [append count_char].
  - destruct (Ascii.eqb x c); [specialize (Hx eq_refl); discriminate Hx | reflexivity].
  - rewrite Hplus. reflexivity.
  - rewrite Hpct, (Hhex _ Hdiv), (Hhex _ Hmod). reflexivity.
Qed.

Lemma urlencode_cons (x : ascii) (rest : string) :
  urlencode (String x rest) = urlencode (String x "") ++ urlencode rest.
Proof.
  simpl.
  destruct (form_safe x); [reflexivity|].
  destruct (nat_of_ascii x =? 32)%nat; reflexivity.
Qed.

Lemma urlencode_never_emits (c : ascii) (s : string) :
  never_emitted c = true -> count_char c (urlencode s) = 0.
Proof.
  intros Hc. induction s as [|x s IH]; [reflexivity|].
  rewrite urlencode_cons, count_char_app, IH, (urlencode_one x c Hc). reflexivity.
Qed.

Lemma params_toString_count (c : ascii) (ps : list (string * string)) :
  never_emitted c = true ->
  count_char c (params_toString ps)
  = (length ps - 1) * (if Ascii.eqb "&" c then 1 else 0)
    + length ps * (if Ascii.eqb "=" c then 1 else 0).
Proof.
  intros Hc. unfold params_toString.
  set (enc := fun p : string * string => urlencode (fst p) ++ "=" ++ urlencode (snd p)).
  assert (Hp : forall p, count_char c (enc p) = if Ascii.eqb "=" c then 1 else 0).
  { intros p. unfold enc.
    rewrite !count_char_app, !urlencode_never_emits by exact Hc.
    cbn [count_char]. lia. }
  induction ps as [|p ps IH]; [reflexivity|].
  destruct ps as [|p' ps].
  - change (String.concat "&" (map enc [p])) with (enc p).
    rewrite Hp. cbn [length].
    destruct (Ascii.eqb "&" c), (Ascii.eqb "=" c); lia.
  - change (String.concat "&" (map enc (p :: p' :: ps)))
      with (enc p ++ "&" ++ String.concat "&" (map enc (p' :: ps))).
    rewrite count_char_app, Hp, count_char_app, IH.
    cbn [count_char length].
    destruct (Ascii.eqb "&" c), (Ascii.eqb "=" c); lia.
Qed.

Lemma count_char_zero_cons (c x : ascii) (a : string) :
  count_char c (String x a) = 0 -> Ascii.eqb x c = false /\ count_char c a = 0.
Proof.
  cbn [count_char]. destruct (Ascii.eqb x c); [discriminate|]. auto.
Qed.

Lemma split_on_app (c : ascii) (a b : string) :
  count_char c a = 0 -> split_on c (a ++ String c b) = a :: split_on c b.
Proof.
  induction a as [|x a IH]; intros H.
  - cbn [append split_on]. rewrite Ascii.eqb_refl. reflexivity.
  - apply count_char_zero_cons in H. destruct H as [Hx Ha].
    cbn [append split_on]. rewrite Hx, (IH Ha). reflexivity.
Qed.

Lemma split_on_none (c : ascii) (a : string) :
  count_char c a = 0 -> split_on c a = [a].
Proof.
  induction a as [|x a IH]; intros H; [reflexivity|].
  apply count_char_zero_cons in H. destruct H as [Hx Ha].
  cbn [split_on]. rewrite Hx, (IH Ha). reflexivity.
Qed.

Lemma split_first_app (c : ascii) (a b : string) :
  count_char c a = 0 -> split_first c (a ++ String c b) = (a, b).
Proof.
  induction a as [|x a IH]; intros H.
  - cbn [append split_first]. rewrite Ascii.eqb_refl. reflexivity.
  - apply count_char_zero_cons in H. destruct H as [Hx Ha].
    cbn [append split_first]. rewrite Hx, (IH Ha). reflexivity.
Qed.

Lemma urldecode_urlencode_cons (x : ascii) (rest : string) :
  urldecode (urlencode (String x rest)) = String x (urldecode (urlencode rest)).
Proof.
  destruct x as [[] [] [] [] [] [] [] []]; reflexivity.
Qed.

(** Decoding undoes the encoding of the serializer. *)
Lemma urldecode_urlencode (s : string) : urldecode (urlencode s) = s.
Proof.
  induction s as [|x s IH]; [reflexivity|].
  rewrite urldecode_urlencode_cons, IH. reflexivity.
Qed.

Lemma append_not_empty (a b : string) (c : ascii) :
  String.eqb (a ++ String c b) "" = false.
Proof. destruct a; reflexivity. Qed.

(** The receiver reads back the parameters that were serialized, names,
    values and order. *)
Lemma form_parse_toString (ps : list (string * string)) :
  form_parse (params_toString ps) = ps.
Proof.
  unfold params_toString.
  set (enc := fun p : string * string => urlencode (fst p) ++ "=" ++ urlencode (snd p)).
  assert (Hamp : forall p, count_char "&" (enc p) = 0).
  { intros p. unfold enc.
    rewrite !count_char_app, !urlencode_never_emits by reflexivity. reflexivity. }
  assert (Hpiece : forall p,
             (let (name, value) := split_first "=" (enc p) in
              (urldecode name, urldecode value)) = p).
  { intros [k v]. unfold enc. cbn [fst snd].
    change (urlencode k ++ "=" ++ urlencode v)
      with (urlencode k ++ String "=" (urlencode v)).
    rewrite split_first_app by (apply urlencode_never_emits; reflexivity).
    rewrite !urldecode_urlencode. reflexivity. }
  assert (Hne : forall p, negb (String.eqb (enc p) "") = true).
  { intros p. unfold enc.
    change (urlencode (fst p) ++ "=" ++ urlencode (snd p))
      with (urlencode (fst p) ++ String "=" (urlencode (snd p))).
    rewrite append_not_empty. reflexivity. }
  induction ps as [|p ps IH]; [reflexivity|].
  destruct ps as [|p' ps].
  - change (String.concat "&" (map enc [p])) with (enc p).
    unfold form_parse. rewrite (split_on_none _ _ (Hamp p)).
    cbn [List.filter]. rewrite Hne. cbn [map]. rewrite Hpiece. reflexivity.
  - change (String.concat "&" (map enc (p :: p' :: ps)))
      with (enc p ++ String "&" (String.concat "&" (map enc (p' :: ps)))).
    assert (Hcons : forall a b,
               count_char "&" a = 0 -> negb (String.eqb a "") = true ->
               form_parse (a ++ String "&" b)
               = (let (name, value) := split_first "=" a in (urldecode name, urldecode value))
                 :: form_parse b).
    { intros a b Ha Hb. unfold form_parse. rewrite (split_on_app _ _ _ Ha).
      cbn [List.filter]. rewrite Hb. reflexivity. }
    rewrite (Hcons _ _ (Hamp p) (Hne p)), Hpiece, IH. reflexivity.
Qed.

(** C8: the request [fetchOne] issues for a category, a query term and
    the filters carries exactly the term, the document type, the network
    code when one is selected, the tags joined by commas when there are
    any, and the limit 500, in this order, and names the selected engine
    in its path: the URL handed to [fetch] has that path before its [?],
    and what follows the [?] reads back, by the form-urlencoded parser of
    the URL standard, as exactly these parameters with these values. *)
Theorem fetchOne_request (documentType : DocumentType) (qv : string) (f : Filters) :
  fetchOne_params documentType qv f
  = ([("q", qv); ("documentType", documentType_str documentType)]
     ++ (if String.eqb (f_language f) "" then [] else [("network", f_language f)])
     ++ (match f_tags f with [] => [] | _ :: _ => [("tags", String.concat "," (f_tags f))] end)
     ++ [("limit", "500")])%list
  /\ fetchOne_url documentType qv f
     = "https://mbs-dev-api.trilogyapps.com/api/search/"
       ++ match f_engine f with al => "al" | es => "es" end
       ++ "?" ++ params_toString (fetchOne_params documentType qv f)
  /\ documentType_str documentType
     = match documentType with playlist => "playlist" | media => "media" end
  /\ fst (split_first "?" (fetchOne_url documentType qv f))
     = "https://mbs-dev-api.trilogyapps.com/api/search/"
       ++ match f_engine f with al => "al" | es => "es" end
  /\ form_parse (snd (split_first "?" (fetchOne_url documentType qv f)))
     = ([("q", qv);
         ("documentType", match documentType with playlist => "playlist" | media => "media" end)]
        ++ (if String.eqb (f_language f) "" then [] else [("network", f_language f)])
        ++ (match f_tags f with [] => [] | _ :: _ => [("tags", String.concat "," (f_tags f))] end)
        ++ [("limit", "500")])%list.
Proof.
  assert (Hps : fetchOne_params documentType qv f
                = ([("q", qv); ("documentType", documentType_str documentType)]
                   ++ (if String.eqb (f_language f) "" then [] else [("network", f_language f)])
                   ++ (match f_tags f with
                       | [] => []
                       | _ :: _ => [("tags", String.concat "," (f_tags f))]
                       end)
                   ++ [("limit", "500")])%list).
  { unfold fetchOne_params, truthy.
    destruct (String.eqb (f_language f) ""), (f_tags f) as [|t ts]; reflexivity. }
  assert (Hsplit : split_first "?" (fetchOne_url documentType qv f)
                   = ("https://mbs-dev-api.trilogyapps.com/api/search/"
                      ++ match f_engine f with al => "al" | es => "es" end,
                      params_toString (fetchOne_params documentType qv f))).
  { unfold fetchOne_url, API_BASE, engine_str.
    destruct (f_engine f).
    - apply (split_first_app "?" "https://mbs-dev-api.trilogyapps.com/api/search/al").
      reflexivity.
    - apply (split_first_app "?" "https://mbs-dev-api.trilogyapps.com/api/search/es").
      reflexivity. }
  split; [exact Hps|]. split.
  { unfold fetchOne_url, API_BASE, engine_str. destruct (f_engine f); reflexivity. }
  split; [destruct documentType; reflexivity|].
  rewrite Hsplit. cbn [fst snd]. split; [reflexivity|].
  rewrite form_parse_toString, Hps. destruct documentType; reflexivity.
Qed.

(** X11: what the user types cannot change the shape of the request. The
    URL of [fetchOne] has one [?], no [#] and no blank, and as many [=]
    and one less [&] than there are parameters: three, plus one for a
    selected network code, plus one for a non-empty tag list, whatever
    characters the query term, the network code and the tags contain. *)
Theorem request_shape_is_fixed (documentType : DocumentType) (qv : string) (f : Filters) :
  let url := fetchOne_url documentType qv f in
  let n := 3 + (if String.eqb (f_language f) "" then 0 else 1)
             + (match f_tags f with [] => 0 | _ :: _ => 1 end) in
  length (fetchOne_params documentType qv f) = n
  /\ count_char "?" url = 1
  /\ count_char "&" url = n - 1
  /\ count_char "=" url = n
  /\ count_char "#" url = 0
  /\ count_char " " url = 0.
Proof.
  intros url n.
  assert (Hn : length (fetchOne_params documentType qv f) = n).
  { subst n. unfold fetchOne_params, truthy.
    destruct (String.eqb (f_language f) ""), (f_tags f) as [|t ts]; reflexivity. }
  clearbody n. subst url. unfold fetchOne_url, API_BASE.
  split; [exact Hn|].
  destruct (f_engine f); cbn [engine_str];
    repeat split;
    rewrite !count_char_app, params_toString_count, Hn by reflexivity;
    cbn; lia.
Qed.

(* ===================================================================== *)
(** ** Blank queries                                                        *)
(* ===================================================================== *)

Lemma find_whitespace (p l : list ascii) :
  In p js_whitespace ->
  find (fun w => starts_with w (p ++ l)) js_whitespace = Some p.
Proof.
  intros Hin. vm_compute in Hin.
  repeat (destruct Hin as [<- | Hin]; [reflexivity|]). contradiction.
Qed.

Lemma whitespace_nonempty (p : list ascii) : In p js_whitespace -> 1 <= length p.
Proof.
  intros Hin. vm_compute in Hin.
  repeat (destruct Hin as [<- | Hin]; [simpl; lia|]). contradiction.
Qed.

Lemma strip_start_blank (ps : list (list ascii)) :
  Forall (fun p => In p js_whitespace) ps ->
  forall fuel, length ps <= fuel ->
  strip_start js_whitespace fuel (concat ps) = [].
Proof.
  induction 1 as [|p ps Hp Hps IH]; intros fuel Hfuel.
  - destruct fuel; reflexivity.
  - destruct fuel as [|fuel]; [simpl in Hfuel; lia|].
    cbn [concat strip_start]. rewrite (find_whitespace p (concat ps) Hp).
    rewrite skipn_app, Nat.sub_diag, skipn_all. simpl.
    apply IH. simpl in Hfuel. lia.
Qed.

Lemma length_concat_blank (ps : list (list ascii)) :
  Forall (fun p => In p js_whitespace) ps -> length ps <= length (concat ps).
Proof.
  induction 1 as [|p ps Hp Hps IH]; [reflexivity|].
  cbn [concat]. rewrite length_app. pose proof (whitespace_nonempty p Hp). simpl. lia.
Qed.

Lemma trim_blank (ps : list (list ascii)) :
  Forall (fun p => In p js_whitespace) ps ->
  trim (string_of_list_ascii (concat ps)) = "".
Proof.
  intros Hps. unfold trim. rewrite list_ascii_of_string_of_list_ascii.
  rewrite (strip_start_blank ps Hps) by (apply length_concat_blank; exact Hps).
  reflexivity.
Qed.

(** X12: a debounced query made of white space only (blanks, tabs, line
    breaks, no-break spaces and the other white space of the language, in
    any number and order) is an empty query: [fetchData] takes the
    browse-all branch and sends an empty term. *)
Theorem blank_query_browses_all (s : State) (ps : list (list ascii)) :
  Forall (fun p => In p js_whitespace) ps ->
  debouncedQ s = string_of_list_ascii (concat ps) ->
  exists cy,
    cycles (fetchData s) !! length (cycles s) = Some cy
    /\ cy_branch cy = BrowseAll /\ cy_qv cy = ""
    /\ cy_url_playlist cy = fetchOne_url playlist "" (filters s)
    /\ cy_url_media cy = fetchOne_url media "" (filters s).
Proof.
  intros Hps Hq. exists (new_cycle s). split; [apply fetchData_new_cycle|].
  unfold new_cycle. rewrite Hq, (trim_blank ps Hps). repeat split.
Qed.

Lemma blank_query_browses_all_witness :
  exists cy,
    cycles (fetchData (set_debouncedQ (String " " (String "009" " ")) mounted)) !! 1 = Some cy
    /\ cy_branch cy = BrowseAll.
Proof.
  assert (Hps : Forall (fun p => In p js_whitespace) [bytes [32]; bytes [9]; bytes [32]]).
  { repeat constructor; vm_compute; tauto. }
  destruct (blank_query_browses_all
              (set_debouncedQ (String " " (String "009" " ")) mounted)
              [bytes [32]; bytes [9]; bytes [32]] Hps eq_refl) as (cy & H1 & H2 & _).
  exists cy. split; [exact H1 | exact H2].
Defined.

(* ===================================================================== *)
(** ** Records and items                                                    *)
(* ===================================================================== *)

Lemma omap_raw (rs : list ApiItem) : omap it_raw (map mapApiToItem rs) = rs.
Proof.
  induction rs as [|ai rs IH]; [reflexivity|].
  cbn [map]. cbn [omap list_omap]. simpl. f_equal. exact IH.
Qed.

(** X13: [fetchOne] hands back one item per record of the response, in
    the order of the response, none dropped, merged or filtered by
    category, however many there are; the records can be read back from
    the items, an item is a series exactly when its record is a playlist,
    and two records give the same item only when they are equal. *)
Theorem items_mirror_records (st : nat) (j : Nullable ApiResponse) (rs : list ApiItem) :
  optchain (optchain j r_data) d_results = jsVal rs ->
  exists r,
    fetchOne false (Arrived {| status := st; body := Json j |}) = inr r
    /\ length (mapped r) = length rs
    /\ map it_id (mapped r) = map ai_id rs
    /\ omap it_raw (mapped r) = rs
    /\ (forall i it, mapped r !! i = Some it ->
          exists ai, rs !! i = Some ai /\ it = mapApiToItem ai
                     /\ (it_kind it = series <-> ai_documentType ai = playlist))
    /\ (forall a b, mapApiToItem a = mapApiToItem b -> a = b).
Proof.
  intros Hrs. unfold fetchOne, fetch, json. simpl. rewrite Hrs. simpl.
  eexists. split; [reflexivity|]. simpl.
  split; [apply length_map|].
  split; [rewrite map_map; reflexivity|].
  split; [apply omap_raw|].
  split.
  - intros i it Hi. change (map mapApiToItem rs) with (mapApiToItem <$> rs) in Hi.
    rewrite list_lookup_fmap in Hi.
    destruct (rs !! i) as [ai|]; simpl in Hi; [|discriminate].
    injection Hi as <-. exists ai. split; [reflexivity|]. split; [reflexivity|].
    simpl. destruct (ai_documentType ai); split; congruence.
  - intros a b H. assert (E : it_raw (mapApiToItem a) = it_raw (mapApiToItem b)) by congruence.
    simpl in E. congruence.
Qed.

Lemma items_mirror_records_witness :
  exists r,
    fetchOne false (ok_response [sample_record "s1" playlist; sample_record "e1" media] 900)
    = inr r /\ length (mapped r) = 2.
Proof.
  destruct (items_mirror_records 200
              (envelope (jsVal [sample_record "s1" playlist; sample_record "e1" media])
                 (jsVal 900%Z))
              [sample_record "s1" playlist; sample_record "e1" media] eq_refl)
    as (r & H1 & H2 & _).
  exists r. split; [exact H1 | exact H2].
Defined.

(* ===================================================================== *)
(** ** The first revision that queries the API: its behaviour               *)
(* ===================================================================== *)

Module Rev1Facts.
Import Rev1.

Lemma rev1_fetchData_empty env (s : State) :
  trim (debouncedQ s) = "" -> fetchData env s = set_counts zero_counts (set_items [] s).
Proof. intros H. unfold fetchData. rewrite H. reflexivity. Qed.

Lemma rev1_truthy_trim (s : State) :
  trim (debouncedQ s) <> "" -> truthy (trim (debouncedQ s)) = true.
Proof.
  intros H. unfold truthy. apply negb_true_iff. apply String.eqb_neq. exact H.
Qed.

Lemma rev1_quiet env (s : State) (t : string) (d : nat) :
  t <> q s -> quiescence <= d ->
  run env s [SetQ t; Advance d]
  = set_now (now s + d)
      (useDebounce_expire env
         (set_now (now s + quiescence)
            (set_timer (Some (now s + quiescence)) (set_q t s)))).
Proof.
  intros Hq Hle. unfold run. simpl.
  apply String.eqb_neq in Hq. rewrite Hq.
  unfold advance, useDebounce_change. simpl.
  assert (Hdue : (now s + quiescence <=? now s + d)%nat = true) by (apply Nat.leb_le; lia).
  rewrite Hdue.
  replace (Nat.max (now s) (now s + quiescence)) with (now s + quiescence) by lia.
  reflexivity.
Qed.

(** X14: in this revision an empty query asks nothing: the first render
    issues no request, and clearing the query never issues one nor
    touches the loading flag. Once the debounce window has passed the
    debounced query is empty; the list and both counts are emptied then
    if the debounced query was not empty before, and stay as they are if
    it was (the text was typed and cleared within the window), whatever a
    cycle has committed in between. *)
Theorem rev1_empty_query_clears env (s : State) (d : nat) :
  q s <> "" -> quiescence <= d ->
  let s' := run env s [SetQ ""; Advance d] in
  q s' = "" /\ debouncedQ s' = ""
  /\ cycles s' = cycles s /\ loading s' = loading s
  /\ (debouncedQ s <> "" ->
      items s' = [] /\ counts s' = zero_counts
      /\ series_list s' = [] /\ episodes_list s' = [])
  /\ (debouncedQ s = "" -> items s' = items s /\ counts s' = counts s)
  /\ cycles (mounted env) = [] /\ loading (mounted env) = false.
Proof.
  intros Hq Hle s'. subst s'.
  assert (Hq' : "" <> q s) by congruence.
  rewrite (rev1_quiet env s "" d Hq' Hle).
  unfold useDebounce_expire. simpl.
  destruct (String.eqb (debouncedQ s) "") eqn:E.
  - apply String.eqb_eq in E. simpl.
    split; [reflexivity|]. split; [exact E|].
    repeat (split; [reflexivity|]).
    split; [intros Hd; congruence|].
    split; [intros _; split; reflexivity|]. split; reflexivity.
  - apply String.eqb_neq in E.
    rewrite rev1_fetchData_empty by reflexivity. simpl.
    repeat (split; [reflexivity|]).
    split; [intros _; repeat split|].
    split; [intros Hd; congruence|]. split; reflexivity.
Qed.

Lemma rev1_empty_query_clears_witness :
  let s := set_items [Rev1.mapApiToItem (sample_record "s1" playlist)]
             (set_debouncedQ "faith" (set_q "faith" init)) in
  let t := set_items [Rev1.mapApiToItem (sample_record "a1" playlist)] (set_q "b" init) in
  items (run jsUndefined s [SetQ ""; Advance 500]) = []
  /\ cycles (run jsUndefined s [SetQ ""; Advance 500]) = []
  /\ length (items (run jsUndefined t [SetQ ""; Advance 500])) = 1.
Proof.
  intros s t.
  assert (H1 : q s <> "") by discriminate.
  assert (H2 : debouncedQ s <> "") by discriminate.
  destruct (rev1_empty_query_clears jsUndefined s 500 H1 (le_n 500))
    as (_ & _ & Hc & _ & Hs & _).
  destruct (Hs H2) as (Hi & _).
  assert (H3 : q t <> "") by discriminate.
  destruct (rev1_empty_query_clears jsUndefined t 500 H3 (le_n 500))
    as (_ & _ & _ & _ & _ & Ht & _).
  destruct (Ht eq_refl) as (Hi' & _).
  split; [exact Hi|]. split; [exact Hc|]. rewrite Hi'. reflexivity.
Defined.

(** X15: in this revision the active tab is a dependency of [fetchData]:
    switching to the other tab with a non-empty query issues the two
    requests again, for the same term, leaving the cycles in flight
    alone; with an empty query it clears the list and the counts. *)
Theorem rev1_tab_change_refetches env (s : State) (t : TabName) :
  t <> tab s ->
  let s' := step env s (SetTab t) in
  tab s' = t
  /\ (trim (debouncedQ s) <> "" ->
      cycles s'
      = (cycles s ++
         [ {| cy_tab := t; cy_qv := trim (debouncedQ s);
              cy_url_playlist := fetchOne_url env playlist (trim (debouncedQ s));
              cy_url_media := fetchOne_url env media (trim (debouncedQ s));
              cy_started_at := now s;
              cy_playlist := None; cy_media := None; cy_outcome := None |} ])%list
      /\ loading s' = true /\ items s' = items s /\ counts s' = counts s)
  /\ (trim (debouncedQ s) = "" ->
      cycles s' = cycles s /\ items s' = [] /\ counts s' = zero_counts).
Proof.
  intros Hne s'. subst s'. simpl.
  assert (E : TabName_eqb t (tab s) = false) by (destruct t, (tab s); simpl; congruence).
  rewrite E. unfold fetchData. simpl.
  split; [destruct (negb (truthy (trim (debouncedQ s)))); reflexivity|].
  split.
  - intros Hq. rewrite (rev1_truthy_trim s Hq). simpl. repeat split.
  - intros Hq. rewrite Hq. simpl. repeat split.
Qed.

Lemma rev1_tab_change_refetches_witness :
  let s := set_debouncedQ "faith" (set_q "faith" init) in
  length (cycles (step jsUndefined s (SetTab tab_episodes))) = 1
  /\ loading (step jsUndefined s (SetTab tab_episodes)) = true.
Proof.
  intros s.
  assert (H1 : tab_episodes <> tab s) by discriminate.
  destruct (rev1_tab_change_refetches jsUndefined s tab_episodes H1) as (_ & H & _).
  assert (H2 : trim (debouncedQ s) <> "") by (vm_compute; discriminate).
  destruct (H H2) as (Hc & Hl & _).
  split; [rewrite Hc; reflexivity | exact Hl].
Defined.

Lemma rev1_deliver_first (s : State) c cy dt net r :
  cycles s !! c = Some cy -> cy_outcome cy = None -> slot dt cy = None ->
  slot (other dt) cy = None -> fetchOne net = inr r ->
  deliver c dt net s = set_cycles (<[c := fill_slot dt r cy]> (cycles s)) s.
Proof.
  intros Hc Ho Hs Hs' Hf. unfold deliver. rewrite Hc, Ho, Hs, Hf.
  destruct dt; simpl in *; rewrite Hs'; reflexivity.
Qed.

Lemma rev1_deliver_last (s : State) c cy dt net r r' :
  cycles s !! c = Some cy -> cy_outcome cy = None -> slot dt cy = None ->
  slot (other dt) cy = Some r' -> fetchOne net = inr r ->
  deliver c dt net s
  = settle c (fill_slot dt r cy)
      (match dt with playlist => Resolved r r' | media => Resolved r' r end) s.
Proof.
  intros Hc Ho Hs Hs' Hf. unfold deliver. rewrite Hc, Ho, Hs, Hf.
  destruct dt; simpl in *; rewrite Hs'; reflexivity.
Qed.

Lemma rev1_cycle_success env (s : State) c cy np nm rp rm s' :
  cycles s !! c = Some cy -> cy_outcome cy = None ->
  cy_playlist cy = None -> cy_media cy = None ->
  fetchOne np = inr rp -> fetchOne nm = inr rm ->
  s' = run env s [Deliver c playlist np; Deliver c media nm]
  \/ s' = run env s [Deliver c media nm; Deliver c playlist np] ->
  s' = settle c (fill_slot media rm (fill_slot playlist rp cy)) (Resolved rp rm)
         (set_cycles (<[c := fill_slot playlist rp cy]> (cycles s)) s)
  \/ s' = settle c (fill_slot playlist rp (fill_slot media rm cy)) (Resolved rp rm)
            (set_cycles (<[c := fill_slot media rm cy]> (cycles s)) s).
Proof.
  intros Hc Ho Hp Hm Hrp Hrm Hs'.
  assert (Hlt : c < length (cycles s)) by (eapply lookup_lt_Some; eauto).
  destruct Hs' as [-> | ->]; unfold run; simpl; [left | right].
  - rewrite (rev1_deliver_first s c cy playlist np rp); auto.
    erewrite (rev1_deliver_last _ c (fill_slot playlist rp cy) media nm rm rp);
      simpl; eauto.
    apply list_lookup_insert_eq. exact Hlt.
  - rewrite (rev1_deliver_first s c cy media nm rm); auto.
    erewrite (rev1_deliver_last _ c (fill_slot media rm cy) playlist np rp rm);
      simpl; eauto.
    apply list_lookup_insert_eq. exact Hlt.
Qed.

(** X16: without an abort controller every cycle that comes back commits,
    whether or not newer cycles have been started since and whatever the
    query and the tab are by then: the counts become the totals of its two
    responses and the list becomes the results for the tab that was active
    when it started. The cycle that settles last wins, not the one started
    last. *)
Theorem rev1_every_cycle_commits env (s : State) (c : nat) (cy : Cycle)
    (np nm : NetResult) (rp rm : FetchOneResult) (s' : State) :
  cycles s !! c = Some cy -> cy_outcome cy = None ->
  cy_playlist cy = None -> cy_media cy = None ->
  fetchOne np = inr rp -> fetchOne nm = inr rm ->
  s' = run env s [Deliver c playlist np; Deliver c media nm]
  \/ s' = run env s [Deliver c media nm; Deliver c playlist np] ->
  counts s' = {| c_series := total rp; c_episodes := total rm |}
  /\ items s' = match cy_tab cy with tab_series => mapped rp | tab_episodes => mapped rm end
  /\ loading s' = false
  /\ tab s' = tab s /\ debouncedQ s' = debouncedQ s
  /\ length (cycles s') = length (cycles s).
Proof.
  intros Hc Ho Hp Hm Hrp Hrm Hs'.
  destruct (rev1_cycle_success env s c cy np nm rp rm s' Hc Ho Hp Hm Hrp Hrm Hs')
    as [-> | ->]; unfold settle, fetchData_resume; simpl;
    destruct (cy_tab cy); simpl; rewrite !length_insert; repeat split.
Qed.

Lemma rev1_every_cycle_commits_witness :
  let s := run jsUndefined init
             [SetQ "a"; Advance 500; SetQ "ab"; Advance 500;
              Deliver 1 playlist (ok_response [sample_record "ab1" playlist] 1);
              Deliver 1 media (ok_response [] 0)] in
  let s' := run jsUndefined s
              [Deliver 0 playlist (ok_response [sample_record "a1" playlist;
                                                sample_record "a2" playlist] 2);
               Deliver 0 media (ok_response [] 7)] in
  debouncedQ s' = "ab"
  /\ counts s' = {| c_series := 2; c_episodes := 7 |}
  /\ length (items s') = 2.
Proof.
  intros s s'.
  destruct (rev1_every_cycle_commits jsUndefined s 0
              {| cy_tab := tab_series; cy_qv := "a";
                 cy_url_playlist := fetchOne_url jsUndefined playlist "a";
                 cy_url_media := fetchOne_url jsUndefined media "a";
                 cy_started_at := 500;
                 cy_playlist := None; cy_media := None; cy_outcome := None |}
              (ok_response [sample_record "a1" playlist; sample_record "a2" playlist] 2)
              (ok_response [] 7)
              {| mapped := [Rev1.mapApiToItem (sample_record "a1" playlist);
                            Rev1.mapApiToItem (sample_record "a2" playlist)];
                 total := 2 |}
              {| mapped := []; total := 7 |}
              s' eq_refl eq_refl eq_refl eq_refl eq_refl eq_refl (or_introl eq_refl))
    as (H1 & H2 & _ & _ & H5 & _).
  split; [rewrite H5; reflexivity|]. split; [exact H1|]. rewrite H2. reflexivity.
Defined.

Lemma rev1_filter_all (k : Kind) (l : list Item) :
  Forall (fun it => it_kind it = k) l -> List.filter (is_kind k) l = l.
Proof.
  induction 1 as [|it l Hit Hl IH]; [reflexivity|].
  simpl. unfold is_kind at 1. rewrite Hit, IH. destruct k; reflexivity.
Qed.

Lemma rev1_filter_none (k k' : Kind) (l : list Item) :
  k <> k' -> Forall (fun it => it_kind it = k') l -> List.filter (is_kind k) l = [].
Proof.
  intros Hne. induction 1 as [|it l Hit Hl IH]; [reflexivity|].
  simpl. unfold is_kind at 1. rewrite Hit, IH. destruct k, k'; congruence.
Qed.

Lemma rev1_or_mock (l : list Item) :
  match l with [] => MOCK | _ :: _ => l end = l.
Proof. destruct l; reflexivity. Qed.

(** X17: in this revision only the results for the tab that was active
    when the cycle started are kept. After a successful cycle whose
    responses hold records of their own category, the list of that tab is
    the whole of its results and the list of the other tab is empty, while
    both counts are the totals of the API: the other tab shows its count
    over an empty grid. *)
Theorem rev1_other_tab_is_empty env (s : State) (c : nat) (cy : Cycle)
    (np nm : NetResult) (rp rm : FetchOneResult) (s' : State) :
  cycles s !! c = Some cy -> cy_outcome cy = None ->
  cy_playlist cy = None -> cy_media cy = None ->
  fetchOne np = inr rp -> fetchOne nm = inr rm ->
  Forall (fun it => it_kind it = series) (mapped rp) ->
  Forall (fun it => it_kind it = episode) (mapped rm) ->
  s' = run env s [Deliver c playlist np; Deliver c media nm]
  \/ s' = run env s [Deliver c media nm; Deliver c playlist np] ->
  counts s' = {| c_series := total rp; c_episodes := total rm |}
  /\ series_list s' = match cy_tab cy with tab_series => mapped rp | tab_episodes => [] end
  /\ episodes_list s' = match cy_tab cy with tab_series => [] | tab_episodes => mapped rm end.
Proof.
  intros Hc Ho Hp Hm Hrp Hrm Hkp Hkm Hs'.
  assert (Hitems : counts s' = {| c_series := total rp; c_episodes := total rm |}
                   /\ items s' = match cy_tab cy with
                                 | tab_series => mapped rp
                                 | tab_episodes => mapped rm
                                 end).
  { destruct (rev1_cycle_success env s c cy np nm rp rm s' Hc Ho Hp Hm Hrp Hrm Hs')
      as [-> | ->]; unfold settle, fetchData_resume; simpl;
      destruct (cy_tab cy); simpl; split; reflexivity. }
  destruct Hitems as [H1 H2]. split; [exact H1|].
  unfold series_list, episodes_list. rewrite rev1_or_mock, H2.
  destruct (cy_tab cy).
  - split; [apply rev1_filter_all; exact Hkp|].
    apply (rev1_filter_none episode series); [discriminate | exact Hkp].
  - split; [|apply rev1_filter_all; exact Hkm].
    apply (rev1_filter_none series episode); [discriminate | exact Hkm].
Qed.

Lemma rev1_other_tab_is_empty_witness :
  let s := run jsUndefined init [SetQ "a"; Advance 500] in
  let s' := run jsUndefined s
              [Deliver 0 playlist (ok_response [sample_record "a1" playlist] 1);
               Deliver 0 media (ok_response [sample_record "e1" media] 42)] in
  counts s' = {| c_series := 1; c_episodes := 42 |} /\ episodes_list s' = [].
Proof.
  intros s s'.
  destruct (rev1_other_tab_is_empty jsUndefined s 0
              {| cy_tab := tab_series; cy_qv := "a";
                 cy_url_playlist := fetchOne_url jsUndefined playlist "a";
                 cy_url_media := fetchOne_url jsUndefined media "a";
                 cy_started_at := 500;
                 cy_playlist := None; cy_media := None; cy_outcome := None |}
              (ok_response [sample_record "a1" playlist] 1)
              (ok_response [sample_record "e1" media] 42)
              {| mapped := [Rev1.mapApiToItem (sample_record "a1" playlist)]; total := 1 |}
              {| mapped := [Rev1.mapApiToItem (sample_record "e1" media)]; total := 42 |}
              s' eq_refl eq_refl eq_refl eq_refl eq_refl eq_refl)
    as (H1 & _ & H3).
  - repeat constructor.
  - repeat constructor.
  - left. reflexivity.
  - split; [exact H1 | exact H3].
Defined.

End Rev1Facts.

(* ===================================================================== *)
(** ** The revision that renders a fixed catalog: its behaviour             *)
(* ===================================================================== *)

Module MockFacts.
Import Mock.

Lemma mock_filter_split (l : list Item) :
  length (List.filter (has_kind series) l) + length (List.filter (has_kind episode) l)
  = length l.
Proof.
  induction l as [|i l IH]; [reflexivity|].
  assert (H : has_kind episode i = negb (has_kind series i))
    by (unfold has_kind; destruct (m_kind i); reflexivity).
  cbn [List.filter]. rewrite H. destruct (has_kind series i); cbn [negb length]; lia.
Qed.

(** X18: in the revision without an API the two tabs split the catalog:
    every item of the catalog is on screen under exactly one tab, the tab
    of its kind; the count on each tab is the number of cards that tab
    shows, and the two counts add up to the size of the catalog; typing
    in the search box changes neither. This holds for the catalog in the
    source and for any other. *)
Theorem mock_tabs_split_catalog (catalog : list Item) (s : State) :
  (c_series (counts catalog) + c_episodes (counts catalog) = Z.of_nat (length catalog))%Z
  /\ (forall t,
         Z.of_nat (length (visible catalog (step s (SetTab t))))
         = match t with
           | tab_series => c_series (counts catalog)
           | tab_episodes => c_episodes (counts catalog)
           end)
  /\ (forall i t,
         In i (visible catalog (step s (SetTab t)))
         <-> In i catalog
             /\ m_kind i = match t with tab_series => series | tab_episodes => episode end)
  /\ (forall text, visible catalog (step s (SetQ text)) = visible catalog s)
  /\ length (visible MOCK init) = 8.
Proof.
  split; [|split; [|split; [|split]]].
  - unfold counts, series_list, episodes_list. simpl.
    rewrite <- Nat2Z.inj_add, mock_filter_split. reflexivity.
  - intros []; reflexivity.
  - intros i t. unfold visible, series_list, episodes_list. simpl.
    destruct t; rewrite filter_In; unfold has_kind;
      destruct (m_kind i); split; intros [H1 H2]; split; auto; discriminate.
  - intros text. reflexivity.
  - reflexivity.
Qed.

Lemma mock_tabs_split_catalog_witness :
  (c_series (counts MOCK) + c_episodes (counts MOCK) = 9)%Z
  /\ In {| m_id := "s1"; m_kind := series; m_title := "Better Together";
           m_description := Some "A series about faith and life.";
           m_image := unsplash "1495567720989-cebdbdd97913" |}
        (visible MOCK (step init (SetTab tab_series))).
Proof.
  destruct (mock_tabs_split_catalog MOCK init) as (H1 & _ & H3 & _).
  split; [exact H1|].
  apply H3. split; [left; reflexivity | reflexivity].
Defined.

End MockFacts.
